(** * acoustic_punctuation: the training entry point [main]

    A shallow embedding of [main] (src/__init__.py, lines 36-206): the
    function that builds the encoder/decoder graph for the configured input
    kind, attaches regularisation, assembles the list of training extensions
    and hands everything to the Blocks main loop.

    [main] is glue: all it does is call into Theano, Blocks and the sibling
    modules [model], [checkpoint] and [sampling].  The embedding therefore
    keeps two things apart.

    - What [main] itself decides: which calls are made, in which order, with
      which arguments, under which tests on the configuration.  This is
      translated statement by statement.
    - What the callees do.  A value returned by a callee is represented by
      the call that produced it (a constructor carrying the arguments), the
      lists a callee hands back are taken from a [framework] record, and any
      call may raise: whether it does is also asked of the [framework].

    One callee is special: [eval(config['step_rule'])] runs in the frame of
    [main].  It is given that frame, and what it leaves of the one mutable
    local that [main] still uses afterwards, the list [extensions], is asked
    of the [framework] too. *)

From Stdlib Require Import ZArith List String Bool Floats Lia.
Set Warnings "-register-all".
Import ListNotations.
Open Scope string_scope.
Open Scope list_scope.

(** ** Python values *)

(** Configuration entries whose Python type the code does not fix: they are
    only tested for truth, compared with [None] or passed on. *)
Inductive pyval : Type :=
| PyNone
| PyBool (b : bool)
| PyInt (z : Z)
| PyFloat (f : float)
| PyStr (s : string).

(** Python's truth value, as used by [if config['reload']:]. *)
Definition truthy (v : pyval) : bool :=
  match v with
  | PyNone => false
  | PyBool b => b
  | PyInt z => negb (z =? 0)%Z
  | PyFloat f => negb (PrimFloat.eqb f 0%float)
  | PyStr s => negb (s =? "")
  end.

(** [v is not None]. *)
Definition is_not_None (v : pyval) : bool :=
  match v with
  | PyNone => false
  | _ => true
  end.

(** The configuration mapping, with the keys [main] reads.  Sizes and
    frequencies are Python integers, rates are floats. *)
Record config : Type := Config {
  input : string;
  src_vocab_size : Z;
  trg_vocab_size : Z;
  audio_feat_size : Z;
  enc_embed : Z;
  enc_nhids : Z;
  dec_embed : Z;
  dec_nhids : Z;
  weight_scale : float;
  dropout : float;
  weight_noise_ff : float;
  step_clipping : float;
  step_rule : string;
  finish_after : Z;
  saveto : string;
  save_freq : Z;
  hook_samples : Z;
  sampling_freq : Z;
  src_vocab : pyval;
  trg_vocab : pyval;
  f1_validation : pyval;
  f1_val_freq : Z;
  normalized_f1 : pyval;
  reload : pyval
}.

(** A data stream handed to [main] by its caller. *)
Inductive stream : Type :=
| Stream (tag : nat).

(** ** Framework objects, named by the call that builds them *)

(** Bricks: the encoder, the decoder and the sub-bricks reached through
    attributes ([encoder.lookup], [decoder.sequence_generator.readout], ...).
    Constructor arguments are kept in call order. *)
Inductive brick : Type :=
| BidirectionalEncoder (a1 a2 a3 : Z)
| BidirectionalAudioEncoder (a1 a2 a3 : Z)
| Decoder (a1 a2 a3 a4 : Z)
| attr (b : brick) (name : string).

(** A shared variable holding a parameter. *)
Inductive parameter : Type :=
| SharedVariable (tag : nat).

(** [VariableFilter(bricks=..., name=...)]. *)
Inductive variable_filter : Type :=
| VariableFilter (bricks : list brick) (name : string).

(** Theano variables (and the sequences of variables that applications
    return), and computation graphs over them. *)
Inductive variable : Type :=
| lmatrix (name : string)
| matrix (name : string)
| ftensor3 (name : string)
| shape (v : variable) (i : Z)                     (* v.shape[i] *)
| ones (d0 d1 : variable)                          (* tensor.ones((d0, d1)) *)
| encoder_apply (enc : brick) (args : list variable)
| decoder_cost (dec : brick) (rep rep_mask target target_mask : variable)
| decoder_generate (dec : brick) (rep : variable)
| item (v : variable) (i : Z)                      (* v[i] *)
| filtered (f : variable_filter) (g : computation_graph)      (* f(g) *)
| unpacked (v : variable) (n i : nat)              (* i-th of n targets of v *)
| graph_variable (tag : nat)                       (* found inside a graph *)
with computation_graph : Type :=
| ComputationGraph (outputs : variable)
| apply_dropout (g : computation_graph) (vars : list variable) (p : float)
| apply_noise (g : computation_graph) (params : list parameter) (level : float).

Inductive initialization : Type :=
| IsotropicGaussian (std : float)
| Constant (c : Z)
| Orthogonal.

Inductive model : Type :=
| Model (outputs : variable).

(** Training extensions, with the arguments [main] passes. *)
Inductive extension : Type :=
| FinishAfter (after_n_batches : Z)
| TrainingDataMonitoring (variables : list variable) (after_batch : bool)
| Printing (after_batch : bool)
| CheckpointNMT (path : string) (every_n_batches : Z)
| Sampler (m : model) (data_stream : stream) (src_voc trg_voc : pyval)
          (hook : Z) (every_n_batches : Z) (src_voc_size : Z)
| F1Validator (samples : variable) (cfg : config) (m : model)
              (data_stream : stream) (normalize : pyval) (every_n_batches : Z)
| LoadNMT (path : string)
| Plot (document : string) (channels : list (list string)) (after_batch : bool).

(** The frame of [main] as [eval] finds it at line 192: the arguments of
    [main] and the locals bound by then.  [sampling] stands for
    [search_model] and [samples], bound only when the sampling graph was
    built; the locals left out (the input variables, [shapes], ...) are terms
    over the ones listed.  [fr_extensions] is the content of the list that
    [extensions] names at that moment. *)
Record frame : Type := Frame {
  fr_config : config;
  fr_tr_stream : stream;
  fr_dev_stream : stream;
  fr_use_bokeh : bool;
  fr_encoder : brick;
  fr_decoder : brick;
  fr_cost : variable;
  fr_cg : computation_graph;
  fr_training_model : model;
  fr_sampling : option (model * variable);
  fr_extensions : list extension
}.

(** The object [eval(source)] evaluates to in a frame. *)
Inductive evaluated : Type :=
| py_eval (source : string) (locals : frame).

Inductive step_rule_obj : Type :=
| StepClipping (threshold : float)
| called (f : evaluated)                           (* f() *)
| CompositeRule (components : list step_rule_obj).

Inductive algorithm : Type :=
| GradientDescent (cost : variable) (parameters : list parameter)
                  (rule : step_rule_obj) (on_unused_sources : string).

Record main_loop : Type := MainLoop {
  ml_model : model;
  ml_algorithm : algorithm;
  ml_data_stream : stream;
  ml_extensions : list extension
}.

(** ** Calls, events and exceptions *)

(** Every call that leaves [main], with its arguments.  A constructor call is
    named by the object it builds. *)
Inductive fwcall : Type :=
| new_variable (v : variable)
| new_brick (b : brick)
| get_attr (b : brick) (name : string)
| new_initialization (i : initialization)
| set_attr (b : brick) (name : string) (i : initialization)
| call_method (b : brick) (name : string)
| new_graph (g : computation_graph)
| read_intermediary_variables (g : computation_graph)
| read_parameters (g : computation_graph)
| selector_get_params (b : brick)       (* Selector(b).get_params().values() *)
| selector_get_parameters (b : brick)   (* Selector(b).get_parameters() *)
| get_value (p : parameter)             (* p.get_value().shape *)
| new_model (m : model)
| new_filter (f : variable_filter)
| new_extension (e : extension)
| unpack (v : variable) (n : nat)       (* binding n targets from v *)
| call_eval (source : string) (locals : frame)   (* eval(source), in main's frame *)
| new_step_rule (r : step_rule_obj)
| new_algorithm (a : algorithm)
| new_main_loop (l : main_loop)
| main_loop_run (l : main_loop).

(** What [logger.info] is given. *)
Inductive log_record : Type :=
| message (s : string)
| shape_count (dims : list Z) (count : nat)    (* '    {:15}: {}' *)
| shape_name (dims : list Z) (name : string)   (* '    {:15}: {}' *)
| total_parameters (n : nat).                  (* "Total number of parameters: {}" *)

Inductive event : Type :=
| Log (r : log_record)
| Call (c : fwcall).

(** The run so far, latest event first. *)
Definition trace : Type := list event.

Inductive exn : Type :=
| UnboundLocalError (local : string)
| Raised (cls : string) (detail : string).

(** What the callees contribute.  [raises h c] tells whether call [c], made
    after the events [h] (latest first), raises; the other fields are the lists that
    framework objects and Python containers hand back.
    [extensions_after_eval source locals] is the content of the list
    [extensions] once [eval(source)()] is through in the frame [locals]: the
    expression is evaluated in the frame of [main], so it can change that
    list in place, and it can read [dev_stream] and [use_bokeh] (which is why
    the call carries the frame). *)
Record framework : Type := Framework {
  raises : trace -> fwcall -> option exn;
  var_name : variable -> option string;                     (* x.name *)
  intermediary_variables : computation_graph -> list variable;
  graph_parameters : computation_graph -> list parameter;   (* cg.parameters *)
  get_params : brick -> list parameter;
  get_parameters : brick -> list (string * parameter);
  value_shape : parameter -> list Z;
  most_common : list (list Z) -> list (list Z * nat);       (* Counter(l).most_common() *)
  merge_items : list (string * parameter) -> list (string * parameter) ->
                list (string * parameter);                  (* merge(d1, d2).items() *)
  extensions_after_eval : string -> frame -> list extension;
  BOKEH_AVAILABLE : bool
}.

(** ** The monad of runs *)

(** A computation is given the events so far and answers with its outcome (an
    exception or a value) and the events it added, latest first. *)
Definition M (A : Type) : Type := trace -> (exn + A) * trace.

Definition ret {A} (a : A) : M A := fun _ => (inr a, []).

Definition raise {A} (e : exn) : M A := fun _ => (inl e, []).

Definition bind {A B} (m : M A) (f : A -> M B) : M B :=
  fun h =>
    match m h with
    | (inr a, new1) =>
        match f a (new1 ++ h) with
        | (r, new2) => (r, new2 ++ new1)
        end
    | (inl e, new1) => (inl e, new1)
    end.

Declare Scope run_scope.
Delimit Scope run_scope with run.
Notation "x <- m ;; k" := (bind m (fun x => k))
  (at level 61, m at next level, right associativity) : run_scope.
Notation "' p <- m ;; k" := (bind m (fun x => match x with p => k end))
  (at level 61, p pattern, m at next level, right associativity) : run_scope.
Notation "m ;; k" := (bind m (fun _ => k))
  (at level 61, right associativity) : run_scope.
Open Scope run_scope.

(** [logger.info(r)]. *)
Definition info (r : log_record) : M unit :=
  fun _ => (inr tt, [Log r]).

(** Reading a local variable that only some branch binds. *)
Definition local {A} (name : string) (v : option A) : M A :=
  match v with
  | Some a => ret a
  | None => raise (UnboundLocalError name)
  end.

(** [for x in l: body x]. *)
Fixpoint for_each {A} (l : list A) (body : A -> M unit) : M unit :=
  match l with
  | [] => ret tt
  | x :: l' => body x ;; for_each l' body
  end.

(** [[f x for x in l]] where evaluating [f x] makes a call. *)
Fixpoint collect {A B} (l : list A) (f : A -> M B) : M (list B) :=
  match l with
  | [] => ret []
  | x :: l' => y <- f x ;; ys <- collect l' f ;; ret (y :: ys)
  end.

(** ** Kinds of objects and events *)

Definition is_Sampler (e : extension) : bool :=
  match e with Sampler _ _ _ _ _ _ _ => true | _ => false end.

Definition is_F1Validator (e : extension) : bool :=
  match e with F1Validator _ _ _ _ _ _ => true | _ => false end.

Definition is_LoadNMT (e : extension) : bool :=
  match e with LoadNMT _ => true | _ => false end.

Definition is_Plot (e : extension) : bool :=
  match e with Plot _ _ _ => true | _ => false end.

(** The extensions that [main] attaches only under some test. *)
Definition is_optional (e : extension) : bool :=
  is_Sampler e || is_F1Validator e || is_LoadNMT e || is_Plot e.

(** Was dropout (weight noise) applied on the way to this graph? *)
Fixpoint has_dropout (g : computation_graph) : bool :=
  match g with
  | ComputationGraph _ => false
  | apply_dropout _ _ _ => true
  | apply_noise g' _ _ => has_dropout g'
  end.

Fixpoint has_noise (g : computation_graph) : bool :=
  match g with
  | ComputationGraph _ => false
  | apply_dropout g' _ _ => has_noise g'
  | apply_noise _ _ _ => true
  end.

(** The input variables of the sampling graph (lines 143, 147 and 149). *)
Definition sampling_input (v : variable) : bool :=
  match v with
  | lmatrix n => (n =? "sampling_words") || (n =? "sampling_words_ends")
  | ftensor3 n => n =? "sampling_audio"
  | _ => false
  end.





(** Number of events of a kind. *)
Definition count (k : event -> bool) (t : trace) : nat :=
  List.length (filter k t).

(** ** More kinds of events *)

(** Setting an initialisation scheme, or pushing it down to the children. *)
Definition is_configuring (ev : event) : bool :=
  match ev with
  | Call (set_attr _ _ _) => true
  | Call (call_method _ name) => name =? "push_initialization_config"
  | _ => false
  end.

Definition is_push (ev : event) : bool :=
  match ev with
  | Call (call_method _ name) => name =? "push_initialization_config"
  | _ => false
  end.

Definition is_initialize (ev : event) : bool :=
  match ev with
  | Call (call_method _ name) => name =? "initialize"
  | _ => false
  end.

(** Overriding the scheme of one sub-brick with [Orthogonal()]. *)
Definition is_override (ev : event) : bool :=
  match ev with
  | Call (set_attr _ _ Orthogonal) => true
  | _ => false
  end.

Definition is_new_brick (ev : event) : bool :=
  match ev with
  | Call (new_brick _) => true
  | _ => false
  end.

Definition is_new_main_loop (ev : event) : bool :=
  match ev with
  | Call (new_main_loop _) => true
  | _ => false
  end.

Definition is_eval (ev : event) : bool :=
  match ev with
  | Call (call_eval _ _) => true
  | _ => false
  end.

Definition is_run (ev : event) : bool :=
  match ev with
  | Call (main_loop_run _) => true
  | _ => false
  end.

(** In a trace (latest first), nothing of kind [k2] comes after an event of
    kind [k1]. *)
Definition none_after (k1 k2 : event -> bool) (t : trace) : Prop :=
  forall later ev earlier,
    t = later ++ ev :: earlier -> k1 ev = true -> count k2 later = 0.

(** The regularisations applied on the way to a graph, outermost first. *)
Inductive regularisation : Type :=
| Dropout
| Noise.

Fixpoint regularisations (g : computation_graph) : list regularisation :=
  match g with
  | ComputationGraph _ => []
  | apply_dropout g' _ _ => Dropout :: regularisations g'
  | apply_noise g' _ _ => Noise :: regularisations g'
  end.

(** The graph as first built, before any regularisation. *)
Fixpoint underlying (g : computation_graph) : computation_graph :=
  match g with
  | ComputationGraph _ => g
  | apply_dropout g' _ _ => underlying g'
  | apply_noise g' _ _ => underlying g'
  end.



(** ** Sample data *)

(** A framework in which no call raises. *)
Definition calm : framework :=
  Framework
    (fun _ _ => None)
    (fun v => match v with
              | graph_variable 1 => Some "maxout_apply_output"
              | graph_variable _ => Some "linear_apply_output"
              | _ => None
              end)
    (fun _ => [graph_variable 0; graph_variable 1; graph_variable 2])
    (fun _ => [SharedVariable 0; SharedVariable 1])
    (fun b => match b with
              | attr _ "lookup" => [SharedVariable 0]
              | attr _ "readout" => [SharedVariable 1]
              | _ => []
              end)
    (fun b => match b with
              | Decoder _ _ _ _ => [("/decoder.W", SharedVariable 1)]
              | _ => [("/encoder.W", SharedVariable 0)]
              end)
    (fun p => match p with SharedVariable 0 => [3; 4]%Z | _ => [5]%Z end)
    (fun l => map (fun s => (s, 1%nat)) l)
    (fun d1 d2 => d1 ++ d2)
    (fun _ locals => fr_extensions locals)
    true.

(** The same framework, except that [encoder.initialize()] raises. *)
Definition stormy : framework :=
  Framework
    (fun _ c => match c with
                | call_method (BidirectionalEncoder _ _ _) "initialize" =>
                    Some (Raised "ValueError" "bad shape")
                | _ => None
                end)
    (var_name calm) (intermediary_variables calm) (graph_parameters calm)
    (get_params calm) (get_parameters calm) (value_shape calm)
    (most_common calm) (merge_items calm) (extensions_after_eval calm)
    (BOKEH_AVAILABLE calm).

Definition sample_config (kind : string) (hook : Z) (f1 reload_ : pyval)
    (drop noise : float) : config :=
  Config kind 100 7 40 16 32 16 32 0.25%float drop noise 1.0%float "AdaDelta"
    1000 "model.npz" 50 hook 10 (PyStr "src.pkl") (PyStr "trg.pkl") f1 20
    (PyBool true) reload_.


(** A configuration with another step rule. *)
Definition with_step_rule (source : string) (c : config) : config :=
  Config (input c) (src_vocab_size c) (trg_vocab_size c) (audio_feat_size c)
    (enc_embed c) (enc_nhids c) (dec_embed c) (dec_nhids c) (weight_scale c)
    (dropout c) (weight_noise_ff c) (step_clipping c) source (finish_after c)
    (saveto c) (save_freq c) (hook_samples c) (sampling_freq c) (src_vocab c)
    (trg_vocab c) (f1_validation c) (f1_val_freq c) (normalized_f1 c)
    (reload c).

(** Two step rules that do more than name a class: evaluated in the frame
    of [main], the first empties the list of extensions in place and the
    second appends to it a Sampler on the training model. *)
Definition emptying_rule : string :=
  "(extensions.__delitem__(slice(None)), AdaDelta)[1]".

Definition appending_rule : string :=
  "(extensions.append(Sampler(model=training_model, data_stream=tr_stream, src_vocab=None, trg_vocab=None, hook_samples=1, every_n_batches=1, src_vocab_size=1)), AdaDelta)[1]".

(** The calm framework, with what [eval] does to the list on these two. *)
Definition meddling : framework :=
  Framework (raises calm) (var_name calm) (intermediary_variables calm)
    (graph_parameters calm) (get_params calm) (get_parameters calm)
    (value_shape calm) (most_common calm) (merge_items calm)
    (fun source locals =>
       if source =? emptying_rule then []
       else if source =? appending_rule then
         fr_extensions locals
         ++ [Sampler (fr_training_model locals) (fr_tr_stream locals)
               PyNone PyNone 1 1 1]
       else fr_extensions locals)
    (BOKEH_AVAILABLE calm).

Section Main.

Variable fw : framework.

(** A call into the framework: recorded, then it raises or returns. *)
Definition call (c : fwcall) : M unit :=
  fun h =>
    match raises fw h c with
    | Some e => (inl e, [Call c])
    | None => (inr tt, [Call c])
    end.

(** A call whose result is the value [a]. *)
Definition returning {A} (c : fwcall) (a : A) : M A :=
  call c ;; ret a.

Definition var (v : variable) : M variable := returning (new_variable v) v.
Definition new (b : brick) : M brick := returning (new_brick b) b.
Definition getattr (b : brick) (name : string) : M brick :=
  returning (get_attr b name) (attr b name).
Definition init (i : initialization) : M initialization :=
  returning (new_initialization i) i.
Definition graph (g : computation_graph) : M computation_graph :=
  returning (new_graph g) g.
Definition extend (e : extension) : M extension :=
  returning (new_extension e) e.

(** [x.name == s]. *)
Definition named (s : string) (x : variable) : bool :=
  match var_name fw x with
  | Some n => n =? s
  | None => false
  end.

(** [Selector(b).get_params().values()]. *)
Definition params_of (b : brick) : M (list parameter) :=
  returning (selector_get_params b) (get_params fw b).

(** [tensor.ones((x.shape[0], x.shape[1]))]. *)
Definition ones_like2 (x : variable) : M variable :=
  d0 <- var (shape x 0) ;;
  d1 <- var (shape x 1) ;;
  var (ones d0 d1).

Definition main (config : config) (tr_stream dev_stream : stream)
    (use_bokeh : bool) : M unit :=
  (* Create Theano variables *)
  info (message "Creating theano variables") ;;
  built <-
    (if input config =? "words" then
       input_words <- var (lmatrix "words") ;;
       input_words_mask <- var (matrix "words_mask") ;;
       punctuation_marks <- var (lmatrix "punctuation_marks") ;;
       punctuation_marks_mask <- var (matrix "punctuation_marks_mask") ;;
       (* Construct model *)
       info (message "Building RNN encoder-decoder") ;;
       encoder <- new (BidirectionalEncoder
                         (src_vocab_size config) (enc_embed config)
                         (enc_nhids config)) ;;
       decoder <- new (Decoder
                         (trg_vocab_size config) (dec_embed config)
                         (dec_nhids config) (enc_nhids config * 2)) ;;
       representation <-
         var (encoder_apply encoder [input_words; input_words_mask]) ;;
       cost <- var (decoder_cost decoder representation input_words_mask
                                 punctuation_marks punctuation_marks_mask) ;;
       ret (Some (encoder, decoder, cost))
     else if input config =? "audio" then
       audio <- var (ftensor3 "audio") ;;
       audio_mask <- var (matrix "audio_mask") ;;
       words_ends <- var (lmatrix "words_ends") ;;
       words_ends_mask <- var (matrix "words_ends_mask") ;;
       punctuation_marks <- var (lmatrix "punctuation_marks") ;;
       punctuation_marks_mask <- var (matrix "punctuation_marks_mask") ;;
       (* Construct model *)
       info (message "Building RNN encoder-decoder") ;;
       encoder <- new (BidirectionalAudioEncoder
                         (audio_feat_size config) (enc_embed config)
                         (enc_nhids config)) ;;
       decoder <- new (Decoder
                         (trg_vocab_size config) (dec_embed config)
                         (dec_nhids config) (enc_nhids config * 2)) ;;
       representation <-
         var (encoder_apply encoder
                [audio; audio_mask; words_ends; words_ends_mask]) ;;
       cost <- var (decoder_cost decoder representation punctuation_marks_mask
                                 punctuation_marks punctuation_marks_mask) ;;
       ret (Some (encoder, decoder, cost))
     else
       ret None) ;;

  info (message "Creating computational graph") ;;
  '(encoder, decoder, cost) <- local "cost" built ;;
  cg <- graph (ComputationGraph cost) ;;

  (* Initialize model *)
  info (message "Initializing model") ;;
  gaussian <- init (IsotropicGaussian (weight_scale config)) ;;
  call (set_attr encoder "weights_init" gaussian) ;;
  call (set_attr decoder "weights_init" gaussian) ;;
  zero <- init (Constant 0) ;;
  call (set_attr encoder "biases_init" zero) ;;
  call (set_attr decoder "biases_init" zero) ;;
  call (call_method encoder "push_initialization_config") ;;
  call (call_method decoder "push_initialization_config") ;;
  orthogonal <- init Orthogonal ;;
  bidir <- getattr encoder "bidir" ;;
  prototype <- getattr bidir "prototype" ;;
  call (set_attr prototype "weights_init" orthogonal) ;;
  (if input config =? "audio" then
     orthogonal <- init Orthogonal ;;
     embedding <- getattr encoder "embedding" ;;
     prototype <- getattr embedding "prototype" ;;
     call (set_attr prototype "weights_init" orthogonal)
   else ret tt) ;;
  orthogonal <- init Orthogonal ;;
  transition <- getattr decoder "transition" ;;
  call (set_attr transition "weights_init" orthogonal) ;;
  call (call_method encoder "initialize") ;;
  call (call_method decoder "initialize") ;;

  (* apply dropout for regularization *)
  cg <-
    (if (dropout config <? 1.0)%float then
       info (message "Applying dropout") ;;
       call (read_intermediary_variables cg) ;;
       let dropout_inputs :=
         filter (named "maxout_apply_output") (intermediary_variables fw cg) in
       graph (apply_dropout cg dropout_inputs (dropout config))
     else ret cg) ;;

  (* Apply weight noise for regularization *)
  cg <-
    (if (0.0 <? weight_noise_ff config)%float then
       info (message "Applying weight noise to ff layers") ;;
       lookup <- getattr encoder "lookup" ;;
       enc_params <- params_of lookup ;;
       fwd_fork <- getattr encoder "fwd_fork" ;;
       more <- params_of fwd_fork ;;
       let enc_params := enc_params ++ more in
       back_fork <- getattr encoder "back_fork" ;;
       more <- params_of back_fork ;;
       let enc_params := enc_params ++ more in
       sequence_generator <- getattr decoder "sequence_generator" ;;
       readout <- getattr sequence_generator "readout" ;;
       dec_params <- params_of readout ;;
       sequence_generator <- getattr decoder "sequence_generator" ;;
       fork <- getattr sequence_generator "fork" ;;
       more <- params_of fork ;;
       let dec_params := dec_params ++ more in
       state_init <- getattr decoder "state_init" ;;
       more <- params_of state_init ;;
       let dec_params := dec_params ++ more in
       graph (apply_noise cg (enc_params ++ dec_params) (weight_noise_ff config))
     else ret cg) ;;

  (* Print shapes *)
  call (read_parameters cg) ;;
  shapes <- collect (graph_parameters fw cg)
              (fun param => returning (get_value param) (value_shape fw param)) ;;
  info (message "Parameter shapes: ") ;;
  for_each (most_common fw shapes)
    (fun '(dims, count) => info (shape_count dims count)) ;;
  info (total_parameters (List.length shapes)) ;;

  (* Print parameter names *)
  enc_dict <- returning (selector_get_parameters encoder) (get_parameters fw encoder) ;;
  dec_dict <- returning (selector_get_parameters decoder) (get_parameters fw decoder) ;;
  let enc_dec_param_dict := merge_items fw enc_dict dec_dict in
  info (message "Parameter names: ") ;;
  for_each enc_dec_param_dict
    (fun '(name, value) =>
       dims <- returning (get_value value) (value_shape fw value) ;;
       info (shape_name dims name)) ;;
  info (total_parameters (List.length enc_dec_param_dict)) ;;

  (* Set up training model *)
  info (message "Building model") ;;
  training_model <- returning (new_model (Model cost)) (Model cost) ;;

  (* Set extensions *)
  info (message "Initializing extensions") ;;
  e1 <- extend (FinishAfter (finish_after config)) ;;
  e2 <- extend (TrainingDataMonitoring [cost] true) ;;
  e3 <- extend (Printing true) ;;
  e4 <- extend (CheckpointNMT (saveto config) (save_freq config)) ;;
  let extensions := [e1; e2; e3; e4] in

  (* Set up beam search and sampling computation graphs if necessary *)
  sampling <-
    (if (hook_samples config >=? 1)%Z || is_not_None (f1_validation config) then
       info (message "Building sampling model") ;;
       sampling_representation <-
         (if input config =? "words" then
            sampling_input_words <- var (lmatrix "sampling_words") ;;
            sampling_input_words_mask <- ones_like2 sampling_input_words ;;
            r <- var (encoder_apply encoder
                        [sampling_input_words; sampling_input_words_mask]) ;;
            ret (Some r)
          else if input config =? "audio" then
            sampling_audio <- var (ftensor3 "sampling_audio") ;;
            sampling_audio_mask <- ones_like2 sampling_audio ;;
            sampling_words_ends <- var (lmatrix "sampling_words_ends") ;;
            sampling_words_ends_mask <- ones_like2 sampling_words_ends ;;
            r <- var (encoder_apply encoder
                        [sampling_audio; sampling_audio_mask;
                         sampling_words_ends; sampling_words_ends_mask]) ;;
            ret (Some r)
          else ret None) ;;
       sampling_representation <-
         local "sampling_representation" sampling_representation ;;
       generated <- var (decoder_generate decoder sampling_representation) ;;
       search_model <- returning (new_model (Model generated)) (Model generated) ;;
       sequence_generator <- getattr decoder "sequence_generator" ;;
       outputs_filter <-
         returning (new_filter (VariableFilter [sequence_generator] "outputs"))
                   (VariableFilter [sequence_generator] "outputs") ;;
       next_outputs <- var (item generated 1) ;;  (* generated[1] is next_outputs *)
       g <- graph (ComputationGraph next_outputs) ;;
       found <- var (filtered outputs_filter g) ;;
       call (unpack found 2) ;;
       let samples := unpacked found 2 1 in
       ret (Some (search_model, samples))
     else ret None) ;;

  (* Add sampling *)
  extensions <-
    (if (hook_samples config >=? 1)%Z then
       info (message "Building sampler") ;;
       '(search_model, _) <- local "search_model" sampling ;;
       e <- extend (Sampler search_model tr_stream
                      (src_vocab config) (trg_vocab config)
                      (hook_samples config) (sampling_freq config)
                      (src_vocab_size config)) ;;
       ret (extensions ++ [e])
     else ret extensions) ;;

  (* Add early stopping based on f1 *)
  extensions <-
    (if is_not_None (f1_validation config) then
       info (message "Building f1 validator") ;;
       '(search_model, samples) <- local "samples" sampling ;;
       e <- extend (F1Validator samples config search_model dev_stream
                      (normalized_f1 config) (f1_val_freq config)) ;;
       ret (extensions ++ [e])
     else ret extensions) ;;

  (* Reload model if necessary *)
  extensions <-
    (if truthy (reload config) then
       e <- extend (LoadNMT (saveto config)) ;;
       ret (extensions ++ [e])
     else ret extensions) ;;

  (* Plot cost in bokeh if necessary *)
  extensions <-
    (if use_bokeh && BOKEH_AVAILABLE fw then
       e <- extend (Plot "Cs-En" [["decoder_cost_cost"]] true) ;;
       ret (extensions ++ [e])
     else ret extensions) ;;

  (* Set up training algorithm *)
  info (message "Initializing training algorithm") ;;
  call (read_parameters cg) ;;
  let parameters := graph_parameters fw cg in
  clipping <- returning (new_step_rule (StepClipping (step_clipping config)))
                        (StepClipping (step_clipping config)) ;;
  let locals :=
    Frame config tr_stream dev_stream use_bokeh encoder decoder cost cg
      training_model sampling extensions in
  call (call_eval (step_rule config) locals) ;;
  let R := py_eval (step_rule config) locals in
  configured <- returning (new_step_rule (called R)) (called R) ;;
  (* eval ran in this frame: the list that [extensions] names is what the
     evaluation, and the call of its result, left of it *)
  let extensions := extensions_after_eval fw (step_rule config) locals in
  rule <- returning (new_step_rule (CompositeRule [clipping; configured]))
                    (CompositeRule [clipping; configured]) ;;
  algorithm <- returning
                 (new_algorithm (GradientDescent cost parameters rule "warn"))
                 (GradientDescent cost parameters rule "warn") ;;

  (* Initialize main loop *)
  info (message "Initializing main loop") ;;
  let l := MainLoop training_model algorithm tr_stream extensions in
  main_loop <- returning (new_main_loop l) l ;;

  (* Train! *)
  call (main_loop_run main_loop).

(** ** A program logic for runs *)

(** A trace is clean when none of its calls raised. *)
Fixpoint clean (t : trace) : Prop :=
  match t with
  | [] => True
  | Log _ :: h => clean h
  | Call c :: h => raises fw h c = None /\ clean h
  end.

(** How a computation started after [h] may end, having added [new]: it returns
    and no call raised; or its last call raised and the outcome is that very
    exception; or it read an unbound local among [U]. *)
Definition outcome_ok (U : string -> Prop) {A} (h : trace) (r : exn + A)
    (new : trace) : Prop :=
  match r with
  | inr _ => clean (new ++ h)
  | inl e =>
      (exists c new', new = Call c :: new' /\ clean (new' ++ h) /\
                      raises fw (new' ++ h) c = Some e)
      \/ (exists x, e = UnboundLocalError x /\ U x /\ clean (new ++ h))
  end.

(** [sound P U m R]: every event [m] adds satisfies [P], its outcome is
    [outcome_ok], and a value it returns satisfies [R]. *)
Definition sound {A} (P : event -> Prop) (U : string -> Prop) (m : M A)
    (R : A -> Prop) : Prop :=
  forall h r new, m h = (r, new) ->
    Forall P new /\ (clean h -> outcome_ok U h r new) /\
    (forall a, r = inr a -> R a).

(** [reaches K m]: when [m] returns, it has added an event satisfying [K]. *)
Definition reaches {A} (K : event -> Prop) (m : M A) : Prop :=
  forall h a new, m h = (inr a, new) -> Exists K new.

(** [at_most k n m]: [m] adds at most [n] events of kind [k]. *)
Definition at_most {A} (k : event -> bool) (n : nat) (m : M A) : Prop :=
  forall h r new, m h = (r, new) -> count k new <= n.

(** [ordered k1 k2 m]: among the events [m] adds, none of kind [k2] comes
    after one of kind [k1]. *)
Definition ordered {A} (k1 k2 : event -> bool) (m : M A) : Prop :=
  forall h r new, m h = (r, new) -> none_after k1 k2 new.

(** [ends_with K m]: when [m] returns, the last event it added satisfies
    [K]. *)
Definition ends_with {A} (K : event -> Prop) (m : M A) : Prop :=
  forall h a new, m h = (inr a, new) ->
    exists ev rest, new = ev :: rest /\ K ev.

(** [precedes K k m]: among the events [m] adds, one that satisfies [K] comes
    before any of kind [k], however [m] ends. *)
Definition precedes {A} (K : event -> Prop) (k : event -> bool) (m : M A)
    : Prop :=
  forall h r new later ev earlier,
    m h = (r, new) -> new = later ++ ev :: earlier -> k ev = true ->
    Exists K earlier.


(** ** What a run of [main] builds *)

Section Run.

Variable config : config.
Variables tr_stream dev_stream : stream.
Variable use_bokeh : bool.

(** The run of [main] from the empty trace: its outcome and its events. *)
Definition outcome : exn + unit :=
  fst (main config tr_stream dev_stream use_bokeh []).

Definition events : trace :=
  snd (main config tr_stream dev_stream use_bokeh []).

(** [main] returned. *)
Definition completed : Prop := outcome = inr tt.

(** [main] called [run] on the main loop [l]. *)
Definition ran (l : main_loop) : Prop := In (Call (main_loop_run l)) events.

(** [exts] is the list of extensions as [main] has assembled it: the content
    of [extensions] when config['step_rule'] is evaluated. *)
Definition assembled (exts : list extension) : Prop :=
  exists source locals,
    In (Call (call_eval source locals)) events /\ exts = fr_extensions locals.

(** Evaluating config['step_rule'] left the list of extensions as it was. *)
Definition list_kept : Prop :=
  forall source locals,
    In (Call (call_eval source locals)) events ->
    extensions_after_eval fw source locals = fr_extensions locals.

(** The tests of [main]. *)
Definition words : bool := input config =? "words".
Definition audio : bool := input config =? "audio".
Definition dropout_on : bool := (dropout config <? 1.0)%float.
Definition noise_on : bool := (0.0 <? weight_noise_ff config)%float.
Definition sampler_on : bool := (hook_samples config >=? 1)%Z.
Definition validator_on : bool := is_not_None (f1_validation config).
Definition sampling_on : bool := sampler_on || validator_on.
Definition reload_on : bool := truthy (reload config).
Definition plot_on : bool := use_bokeh && BOKEH_AVAILABLE fw.

(** The objects built along the way, as terms over the configuration. *)
Definition the_encoder : brick :=
  if words then
    BidirectionalEncoder (src_vocab_size config) (enc_embed config)
      (enc_nhids config)
  else
    BidirectionalAudioEncoder (audio_feat_size config) (enc_embed config)
      (enc_nhids config).

Definition the_decoder : brick :=
  Decoder (trg_vocab_size config) (dec_embed config) (dec_nhids config)
    (enc_nhids config * 2).

Definition training_representation : variable :=
  if words then
    encoder_apply the_encoder [lmatrix "words"; matrix "words_mask"]
  else
    encoder_apply the_encoder
      [ftensor3 "audio"; matrix "audio_mask";
       lmatrix "words_ends"; matrix "words_ends_mask"].

Definition the_cost : variable :=
  decoder_cost the_decoder training_representation
    (if words then matrix "words_mask" else matrix "punctuation_marks_mask")
    (lmatrix "punctuation_marks") (matrix "punctuation_marks_mask").

Definition graph0 : computation_graph := ComputationGraph the_cost.

Definition dropout_inputs : list variable :=
  filter (named "maxout_apply_output") (intermediary_variables fw graph0).

Definition graph1 : computation_graph :=
  if dropout_on then apply_dropout graph0 dropout_inputs (dropout config)
  else graph0.

Definition noise_params : list parameter :=
  ((get_params fw (attr the_encoder "lookup")
    ++ get_params fw (attr the_encoder "fwd_fork"))
   ++ get_params fw (attr the_encoder "back_fork"))
  ++ ((get_params fw (attr (attr the_decoder "sequence_generator") "readout")
       ++ get_params fw (attr (attr the_decoder "sequence_generator") "fork"))
      ++ get_params fw (attr the_decoder "state_init")).

Definition graph2 : computation_graph :=
  if noise_on then apply_noise graph1 noise_params (weight_noise_ff config)
  else graph1.

Definition ones_of (x : variable) : variable := ones (shape x 0) (shape x 1).

Definition sampling_representation : variable :=
  if words then
    encoder_apply the_encoder
      [lmatrix "sampling_words"; ones_of (lmatrix "sampling_words")]
  else
    encoder_apply the_encoder
      [ftensor3 "sampling_audio"; ones_of (ftensor3 "sampling_audio");
       lmatrix "sampling_words_ends"; ones_of (lmatrix "sampling_words_ends")].

Definition generated : variable :=
  decoder_generate the_decoder sampling_representation.

Definition search_model : model := Model generated.

Definition outputs_filter : variable_filter :=
  VariableFilter [attr the_decoder "sequence_generator"] "outputs".

Definition found : variable :=
  filtered outputs_filter (ComputationGraph (item generated 1)).

Definition samples : variable := unpacked found 2 1.

Definition base_extensions : list extension :=
  [FinishAfter (finish_after config);
   TrainingDataMonitoring [the_cost] true;
   Printing true;
   CheckpointNMT (saveto config) (save_freq config)].

Definition the_sampler : extension :=
  Sampler search_model tr_stream (src_vocab config) (trg_vocab config)
    (hook_samples config) (sampling_freq config) (src_vocab_size config).

Definition the_validator : extension :=
  F1Validator samples config search_model dev_stream (normalized_f1 config)
    (f1_val_freq config).

Definition the_plot : extension := Plot "Cs-En" [["decoder_cost_cost"]] true.

Definition extensions1 : list extension :=
  if sampler_on then base_extensions ++ [the_sampler] else base_extensions.

Definition extensions2 : list extension :=
  if validator_on then extensions1 ++ [the_validator] else extensions1.

Definition extensions3 : list extension :=
  if reload_on then extensions2 ++ [LoadNMT (saveto config)] else extensions2.

Definition extensions4 : list extension :=
  if plot_on then extensions3 ++ [the_plot] else extensions3.

(** [search_model] and [samples], when bound. *)
Definition the_sampling : option (model * variable) :=
  if sampling_on then Some (search_model, samples) else None.

(** The frame in which config['step_rule'] is evaluated. *)
Definition the_frame : frame :=
  Frame config tr_stream dev_stream use_bokeh the_encoder the_decoder
    the_cost graph2 (Model the_cost) the_sampling extensions4.

(** The list of extensions as the evaluation left it. *)
Definition extensions5 : list extension :=
  extensions_after_eval fw (step_rule config) the_frame.

Definition the_rule : step_rule_obj :=
  CompositeRule
    [StepClipping (step_clipping config);
     called (py_eval (step_rule config) the_frame)].

Definition the_algorithm : algorithm :=
  GradientDescent the_cost (graph_parameters fw graph2) the_rule "warn".

Definition the_main_loop : main_loop :=
  MainLoop (Model the_cost) the_algorithm tr_stream extensions5.

(** What each event of a run is: the invariant of [main]. *)
Definition explained (ev : event) : Prop :=
  match ev with
  | Log _ => True
  | Call c =>
      match c with
      | new_brick b => b = the_encoder \/ b = the_decoder
      | new_variable v =>
          match v with
          | decoder_cost _ _ _ _ _ => v = the_cost
          | encoder_apply _ _ =>
              v = training_representation
              \/ (sampling_on = true /\ v = sampling_representation)
          | decoder_generate _ _ => sampling_on = true /\ v = generated
          | item _ _ => sampling_on = true /\ v = item generated 1
          | filtered _ _ => sampling_on = true /\ v = found
          | shape _ _ | ones _ _ => sampling_on = true
          | lmatrix _ | matrix _ | ftensor3 _ =>
              sampling_input v = true -> sampling_on = true
          | unpacked _ _ _ | graph_variable _ => False
          end
      | new_graph g =>
          match g with
          | ComputationGraph _ =>
              g = graph0
              \/ (sampling_on = true /\ g = ComputationGraph (item generated 1))
          | apply_dropout _ _ _ =>
              dropout_on = true
              /\ g = apply_dropout graph0 dropout_inputs (dropout config)
          | apply_noise _ _ _ =>
              noise_on = true
              /\ g = apply_noise graph1 noise_params (weight_noise_ff config)
          end
      | read_intermediary_variables g => dropout_on = true /\ g = graph0
      | read_parameters g => g = graph2
      | new_model m => m = Model the_cost \/ (sampling_on = true /\ m = search_model)
      | new_filter f => sampling_on = true /\ f = outputs_filter
      | unpack v n => sampling_on = true /\ v = found /\ n = 2%nat
      | new_extension e =>
          match e with
          | Sampler _ _ _ _ _ _ _ => sampler_on = true /\ e = the_sampler
          | F1Validator _ _ _ _ _ _ => validator_on = true /\ e = the_validator
          | LoadNMT _ => reload_on = true /\ e = LoadNMT (saveto config)
          | Plot _ _ _ => plot_on = true /\ e = the_plot
          | _ => In e base_extensions
          end
      | call_eval s locals => s = step_rule config /\ locals = the_frame
      | new_step_rule r =>
          r = StepClipping (step_clipping config)
          \/ r = called (py_eval (step_rule config) the_frame)
          \/ r = the_rule
      | new_algorithm a => a = the_algorithm
      | new_main_loop l => l = the_main_loop
      | main_loop_run l => l = the_main_loop
      | _ => True
      end
  end.

(** The two model-construction branches, as the objects they build. *)
Definition words_encoder : brick :=
  BidirectionalEncoder (src_vocab_size config) (enc_embed config)
    (enc_nhids config).

Definition audio_encoder : brick :=
  BidirectionalAudioEncoder (audio_feat_size config) (enc_embed config)
    (enc_nhids config).




(** The dictionary whose names are printed (line 120), as the list of its
    items. *)
Definition merged : list (string * parameter) :=
  merge_items fw (get_parameters fw the_encoder) (get_parameters fw the_decoder).

(** The attributes of bricks that a run may read, each under its test. *)
Definition attribute_read (b : brick) (name : string) : Prop :=
  (b = the_encoder /\ name = "bidir")
  \/ (b = attr the_encoder "bidir" /\ name = "prototype")
  \/ (audio = true /\ b = the_encoder /\ name = "embedding")
  \/ (audio = true /\ b = attr the_encoder "embedding" /\ name = "prototype")
  \/ (b = the_decoder /\ name = "transition")
  \/ (noise_on = true /\ b = the_encoder
      /\ (name = "lookup" \/ name = "fwd_fork" \/ name = "back_fork"))
  \/ (noise_on = true /\ b = attr the_decoder "sequence_generator"
      /\ (name = "readout" \/ name = "fork"))
  \/ (noise_on = true /\ b = the_decoder /\ name = "state_init")
  \/ ((noise_on = true \/ sampling_on = true)
      /\ b = the_decoder /\ name = "sequence_generator").

(** The initialisation schemes that a run may set. *)
Definition scheme_set (b : brick) (name : string) (i : initialization) : Prop :=
  ((b = the_encoder \/ b = the_decoder) /\ name = "weights_init"
   /\ i = IsotropicGaussian (weight_scale config))
  \/ ((b = the_encoder \/ b = the_decoder) /\ name = "biases_init"
      /\ i = Constant 0)
  \/ (b = attr (attr the_encoder "bidir") "prototype"
      /\ name = "weights_init" /\ i = Orthogonal)
  \/ (audio = true /\ b = attr (attr the_encoder "embedding") "prototype"
      /\ name = "weights_init" /\ i = Orthogonal)
  \/ (b = attr the_decoder "transition"
      /\ name = "weights_init" /\ i = Orthogonal).

(** A second invariant of [main]: what is logged about the parameters, which
    parameters are read, which attributes are touched and how the sampling
    masks are made. *)
Definition reported (ev : event) : Prop :=
  match ev with
  | Log (message _) => True
  | Log (total_parameters n) =>
      n = List.length (graph_parameters fw graph2)
      \/ n = List.length merged
  | Log (shape_count dims n) =>
      In (dims, n)
         (most_common fw (map (value_shape fw) (graph_parameters fw graph2)))
  | Log (shape_name dims name) =>
      exists p, In (name, p) merged /\ dims = value_shape fw p
  | Call c =>
      match c with
      | get_value p =>
          In p (graph_parameters fw graph2) \/ exists name, In (name, p) merged
      | get_attr b name => attribute_read b name
      | set_attr b name i => scheme_set b name i
      | call_method b name =>
          (b = the_encoder \/ b = the_decoder)
          /\ (name = "push_initialization_config" \/ name = "initialize")
      | new_initialization i =>
          i = IsotropicGaussian (weight_scale config) \/ i = Constant 0
          \/ i = Orthogonal
      | selector_get_parameters b => b = the_encoder \/ b = the_decoder
      | new_variable (ones d0 d1) =>
          exists x, sampling_input x = true /\ d0 = shape x 0 /\ d1 = shape x 1
      | new_variable (shape x i) =>
          sampling_input x = true /\ (i = 0 \/ i = 1)%Z
      | _ => True
      end
  end.

(** The only local that a run can find unbound. *)
Definition may_be_unbound (x : string) : Prop :=
  x = "cost" /\ words = false /\ audio = false.

(** ** Rules of the program logic *)

Lemma sound_ret {A} P U (a : A) : sound P U (ret a) (eq a).
Proof.
  intros h r new E. inversion E; subst. split; [|split].
  - constructor.
  - intros Hh. exact Hh.
  - intros a' Ha. congruence.
Qed.

Lemma sound_raise {A} P U x (R : A -> Prop) :
  U x -> sound P U (raise (UnboundLocalError x)) R.
Proof.
  intros Hx h r new E. inversion E; subst. split; [|split].
  - constructor.
  - intros Hh. right. exists x. auto.
  - intros a Ha. discriminate.
Qed.

Lemma sound_info P U r : P (Log r) -> sound P U (info r) (eq tt).
Proof.
  intros HP h r' new E. inversion E; subst. split; [|split].
  - repeat constructor. exact HP.
  - intros Hh. exact Hh.
  - intros []. reflexivity.
Qed.

Lemma sound_call P U c : P (Call c) -> sound P U (call c) (eq tt).
Proof.
  intros HP h r new E. unfold call in E.
  destruct (raises fw h c) as [e|] eqn:Hr; inversion E; subst;
    (split; [|split]).
  - repeat constructor. exact HP.
  - intros Hh. left. exists c, []. auto.
  - intros a Ha. discriminate.
  - repeat constructor. exact HP.
  - intros Hh. simpl. auto.
  - intros []. reflexivity.
Qed.

Lemma sound_bind {A B} P U (m : M A) (f : A -> M B) R1 R :
  sound P U m R1 -> (forall a, R1 a -> sound P U (f a) R) ->
  sound P U (bind m f) R.
Proof.
  intros Hm Hf h r new E. unfold bind in E.
  destruct (m h) as [r1 new1] eqn:E1.
  destruct (Hm h r1 new1 E1) as (HP1 & Hc1 & HR1).
  destruct r1 as [e|a].
  - inversion E; subst. split; [|split].
    + exact HP1.
    + intros Hh. exact (Hc1 Hh).
    + intros a Ha. discriminate.
  - destruct (f a (new1 ++ h)) as [r2 new2] eqn:E2. inversion E; subst.
    destruct (Hf a (HR1 a eq_refl) _ _ _ E2) as (HP2 & Hc2 & HR2).
    split; [|split].
    + apply Forall_app. split; assumption.
    + intros Hh. specialize (Hc2 (Hc1 Hh)). unfold outcome_ok in *.
      destruct r as [e|b].
      * destruct Hc2 as [(c & new' & -> & Hcl & Hr) | (x & -> & Hx & Hcl)].
        -- left. exists c, (new' ++ new1). simpl.
           rewrite <- !app_assoc. auto.
        -- right. exists x. rewrite <- app_assoc. auto.
      * rewrite <- app_assoc. exact Hc2.
    + exact HR2.
Qed.

Lemma sound_unbound {A B} P U x (f : A -> M B) R :
  U x -> sound P U (bind (local x None) f) R.
Proof.
  intros Hx h r new E. apply (@sound_raise B P U x R Hx h). exact E.
Qed.

Lemma sound_weaken {A} P U (m : M A) (R R' : A -> Prop) :
  sound P U m R -> (forall a, R a -> R' a) -> sound P U m R'.
Proof.
  intros Hm HR h r new E. destruct (Hm h r new E) as (HP & Hc & Hr).
  split; [|split]; auto.
Qed.

Lemma sound_returning {A} P U c (a : A) :
  P (Call c) -> sound P U (returning c a) (eq a).
Proof.
  intros HP. unfold returning. eapply sound_bind.
  - apply sound_call. exact HP.
  - intros _ _. apply sound_ret.
Qed.

Lemma sound_if {A} P U (c : bool) (m1 m2 : M A) v1 v2 :
  (c = true -> sound P U m1 (eq v1)) ->
  (c = false -> sound P U m2 (eq v2)) ->
  sound P U (if c then m1 else m2) (eq (if c then v1 else v2)).
Proof. destruct c; auto. Qed.

Lemma sound_local_bound {A} P U name (a : A) :
  sound P U (local name (Some a)) (eq a).
Proof. apply sound_ret. Qed.

Lemma sound_for_each {A} P U (l : list A) body :
  (forall x, sound P U (body x) (eq tt)) ->
  sound P U (for_each l body) (eq tt).
Proof.
  intros Hb. induction l as [|x l IH]; simpl.
  - apply sound_ret.
  - eapply sound_bind; [apply Hb | intros _ _; exact IH].
Qed.

Lemma sound_collect {A B} P U (l : list A) (f : A -> M B) g :
  (forall x, sound P U (f x) (eq (g x))) ->
  sound P U (collect l f) (eq (map g l)).
Proof.
  intros Hf. induction l as [|x l IH]; simpl.
  - apply sound_ret.
  - eapply sound_bind; [apply Hf | intros y <-].
    eapply sound_bind; [exact IH | intros ys <-]. apply sound_ret.
Qed.

Ltac walk leaf :=
  cbv beta iota;
  lazymatch goal with
  | |- sound _ _ (bind (local _ None) _) _ => apply sound_unbound; leaf
  | |- sound _ _ (bind _ _) _ =>
      eapply sound_bind; [ walk leaf | intros ? ?; subst; walk leaf ]
  | |- sound _ _ (ret _) _ => apply sound_ret
  | |- sound _ _ (info _) _ => apply sound_info; leaf
  | |- sound _ _ (call _) _ => apply sound_call; leaf
  | |- sound _ _ (returning _ _) _ => apply sound_returning; leaf
  | |- sound _ _ (local _ (Some _)) _ => apply sound_local_bound
  | |- sound _ _ (for_each _ _) _ =>
      apply sound_for_each; intros [? ?]; walk leaf
  | |- sound _ _ (collect _ _) _ =>
      eapply sound_collect; intros ?; walk leaf
  | |- sound _ _ (if ?c then _ else _) _ =>
      apply sound_if;
      (let H := fresh "Hc" in
       intros H; rewrite ?H, ?orb_true_r; cbv beta iota delta [orb]; walk leaf)
  end.

Ltac open_main :=
  unfold main, ones_like2, var, new, getattr, init, graph, extend, params_of.

Ltac use_tests :=
  repeat match goal with
         | H : _ = true |- _ => rewrite H
         | H : _ = false |- _ => rewrite H
         end.

Ltac explain :=
  unfold explained; cbv beta iota;
  unfold the_main_loop, the_algorithm, the_rule, extensions5, the_frame,
    the_sampling, extensions4, extensions3,
    extensions2, extensions1, the_plot, the_validator, the_sampler,
    base_extensions, samples, found, outputs_filter, search_model, generated,
    sampling_representation, ones_of, graph2, noise_params, graph1,
    dropout_inputs, graph0, the_cost, training_representation, the_decoder,
    the_encoder, plot_on, reload_on, sampling_on, validator_on, sampler_on,
    noise_on, dropout_on, may_be_unbound, audio, words, sampling_input;
  use_tests; cbv beta iota;
  first [ exact I | reflexivity | solve [simpl; auto 10]
        | solve [intuition (auto; discriminate)] ].

Lemma main_sound :
  sound explained may_be_unbound
    (main config tr_stream dev_stream use_bokeh) (eq tt).
Proof.
  open_main.
  destruct (input config =? "words") eqn:Hw;
    [| destruct (input config =? "audio") eqn:Ha].
  - walk explain.
  - walk explain.
  - walk explain.
Qed.

(** Rules for [reaches]. *)

Lemma reaches_bind_l {A B} K (m : M A) (f : A -> M B) :
  reaches K m -> reaches K (bind m f).
Proof.
  intros Hm h b new E. unfold bind in E.
  destruct (m h) as [[e|a] new1] eqn:E1; [discriminate|].
  destruct (f a (new1 ++ h)) as [r2 new2]. inversion E; subst.
  apply Exists_app. right. exact (Hm h a new1 E1).
Qed.

Lemma reaches_bind_r {A B} K (m : M A) (f : A -> M B) :
  (forall a, reaches K (f a)) -> reaches K (bind m f).
Proof.
  intros Hf h b new E. unfold bind in E.
  destruct (m h) as [[e|a] new1] eqn:E1; [discriminate|].
  destruct (f a (new1 ++ h)) as [r2 new2] eqn:E2. inversion E; subst.
  apply Exists_app. left. exact (Hf a _ b new2 E2).
Qed.

Lemma reaches_call K c : K (Call c) -> reaches K (call c).
Proof.
  intros HK h a new E. unfold call in E.
  destruct (raises fw h c); inversion E; subst. constructor. exact HK.
Qed.

Lemma reaches_returning {A} K c (a : A) :
  K (Call c) -> reaches K (returning c a).
Proof. intros HK. apply reaches_bind_l. apply reaches_call. exact HK. Qed.

Lemma reaches_bind_returning {A B} K c (a : A) (f : A -> M B) :
  reaches K (f a) -> reaches K (bind (returning c a) f).
Proof.
  intros Hf h b new E. unfold bind at 1 in E.
  destruct (returning c a h) as [[e|a'] new1] eqn:E1; [discriminate|].
  assert (a' = a) as ->.
  { unfold returning, bind, call, ret in E1.
    destruct (raises fw h c); inversion E1; reflexivity. }
  destruct (f a (new1 ++ h)) as [r2 new2] eqn:E2. inversion E; subst.
  apply Exists_app. left. exact (Hf _ b new2 E2).
Qed.

Lemma reaches_info K r : K (Log r) -> reaches K (info r).
Proof. intros HK h a new E. inversion E; subst. constructor. exact HK. Qed.

(** Rules for [at_most]. *)

Lemma count_app k (t1 t2 : trace) : count k (t1 ++ t2) = count k t1 + count k t2.
Proof. unfold count. rewrite filter_app, length_app. reflexivity. Qed.

Lemma at_most_ret {A} k (a : A) : at_most k 0 (ret a).
Proof. intros h r new E. inversion E; subst. apply le_n. Qed.

Lemma at_most_local {A} k name (v : option A) : at_most k 0 (local name v).
Proof. destruct v; intros h r new E; inversion E; subst; apply le_n. Qed.

Lemma at_most_info k r : k (Log r) = false -> at_most k 0 (info r).
Proof.
  intros Hk h r' new E. inversion E; subst. unfold count. simpl.
  rewrite Hk. apply le_n.
Qed.

Lemma at_most_call_one k c : at_most k 1 (call c).
Proof.
  intros h r new E. unfold call in E.
  destruct (raises fw h c); inversion E; subst; unfold count; simpl;
    destruct (k (Call c)); simpl; lia.
Qed.

Lemma at_most_call_none k c : k (Call c) = false -> at_most k 0 (call c).
Proof.
  intros Hk h r new E. unfold call in E.
  destruct (raises fw h c); inversion E; subst; unfold count; simpl;
    rewrite Hk; apply le_n.
Qed.

Lemma at_most_bind {A B} k n1 n2 (m : M A) (f : A -> M B) :
  at_most k n1 m -> (forall a, at_most k n2 (f a)) ->
  at_most k (n1 + n2) (bind m f).
Proof.
  intros Hm Hf h r new E. unfold bind in E.
  destruct (m h) as [[e|a] new1] eqn:E1.
  - inversion E; subst. pose proof (Hm _ _ _ E1). lia.
  - destruct (f a (new1 ++ h)) as [r2 new2] eqn:E2. inversion E; subst.
    rewrite count_app. pose proof (Hm _ _ _ E1). pose proof (Hf _ _ _ _ E2).
    lia.
Qed.

Lemma at_most_bind_none {A B} k (m : M A) (f : A -> M B) :
  at_most k 0 m -> (forall a, at_most k 0 (f a)) -> at_most k 0 (bind m f).
Proof. intros Hm Hf. change 0 with (0 + 0). apply at_most_bind; assumption. Qed.

Lemma at_most_if {A} k n1 n2 (c : bool) (m1 m2 : M A) :
  at_most k n1 m1 -> at_most k n2 m2 ->
  at_most k (n1 + n2) (if c then m1 else m2).
Proof.
  intros H1 H2 h r new E. destruct c.
  - pose proof (H1 _ _ _ E). lia.
  - pose proof (H2 _ _ _ E). lia.
Qed.

Lemma at_most_for_each {A} k (l : list A) body :
  (forall x, at_most k 0 (body x)) -> at_most k 0 (for_each l body).
Proof.
  intros Hb. induction l as [|x l IH]; simpl.
  - apply at_most_ret.
  - apply at_most_bind_none; [apply Hb | intros _; exact IH].
Qed.

Lemma at_most_collect {A B} k (l : list A) (f : A -> M B) :
  (forall x, at_most k 0 (f x)) -> at_most k 0 (collect l f).
Proof.
  intros Hf. induction l as [|x l IH]; simpl.
  - apply at_most_ret.
  - apply at_most_bind_none; [apply Hf | intros y].
    apply at_most_bind_none; [exact IH | intros ys; apply at_most_ret].
Qed.

Lemma at_most_weaken {A} k n n' (m : M A) :
  at_most k n m -> n <= n' -> at_most k n' m.
Proof. intros Hm Hn h r new E. pose proof (Hm _ _ _ E). lia. Qed.

Ltac split_pairs :=
  repeat match goal with
         | x : (_ * _)%type |- _ => destruct x
         end.

(** Find, along the statements of a computation, a call that satisfies the
    kind looked for; [tests] rewrites with what is known of the tests. *)
Ltac seek_with leaf :=
  cbv beta iota;
  lazymatch goal with
  | |- reaches _ (bind (returning _ _) _) =>
      first [ apply reaches_bind_l; apply reaches_returning;
              solve [cbv beta; leaf]
            | apply reaches_bind_returning; seek_with leaf ]
  | |- reaches _ (bind _ _) =>
      first [ apply reaches_bind_l; seek_with leaf
            | apply reaches_bind_r; intros ?; split_pairs; seek_with leaf ]
  | |- reaches _ (call _) => apply reaches_call; solve [cbv beta; leaf]
  | |- reaches _ (returning _ _) =>
      apply reaches_returning; solve [cbv beta; leaf]
  | |- reaches _ (if ?c then _ else _) =>
      match goal with
      | H : c = _ |- _ => rewrite H; seek_with leaf
      end
  end.

Ltac seek := seek_with ltac:(repeat eexists).

Ltac tally :=
  cbv beta iota;
  lazymatch goal with
  | |- at_most _ ?n (bind _ _) =>
      tryif is_evar n
      then (eapply at_most_bind; [ tally | intros ?; split_pairs; tally ])
      else (apply at_most_bind_none; [ tally | intros ?; split_pairs; tally ])
  | |- at_most _ _ (ret _) => apply at_most_ret
  | |- at_most _ _ (local _ _) => apply at_most_local
  | |- at_most _ _ (info _) => apply at_most_info; reflexivity
  | |- at_most _ _ (call _) =>
      first [ apply at_most_call_none; reflexivity | apply at_most_call_one ]
  | |- at_most _ _ (returning _ _) => unfold returning; tally
  | |- at_most _ _ (for_each _ _) =>
      apply at_most_for_each; intros [? ?]; tally
  | |- at_most _ _ (collect _ _) =>
      apply at_most_collect; intros ?; tally
  | |- at_most _ _ (if _ then _ else _) => eapply at_most_if; tally
  end.

(** *** Counting and ordering events *)

Lemma count_in k ev (t : trace) : In ev t -> k ev = true -> 1 <= count k t.
Proof.
  unfold count. intros Hin Hk.
  assert (H : In ev (filter k t)) by (apply filter_In; auto).
  destruct (filter k t); [destruct H | simpl; lia].
Qed.


Lemma at_most_if_none {A} k (c : bool) (m1 m2 : M A) :
  at_most k 0 m1 -> at_most k 0 m2 -> at_most k 0 (if c then m1 else m2).
Proof. destruct c; auto. Qed.

(** [m] adds no event of the kind. *)
Ltac absent :=
  cbv beta iota;
  lazymatch goal with
  | |- at_most _ _ (bind _ _) =>
      apply at_most_bind_none; [ absent | intros ?; split_pairs; absent ]
  | |- at_most _ _ (ret _) => apply at_most_ret
  | |- at_most _ _ (local _ _) => apply at_most_local
  | |- at_most _ _ (info _) => apply at_most_info; reflexivity
  | |- at_most _ _ (call _) => apply at_most_call_none; reflexivity
  | |- at_most _ _ (returning _ _) => unfold returning; absent
  | |- at_most _ _ (for_each _ _) =>
      apply at_most_for_each; intros [? ?]; absent
  | |- at_most _ _ (collect _ _) =>
      apply at_most_collect; intros ?; absent
  | |- at_most _ _ (if _ then _ else _) => apply at_most_if_none; absent
  end.

Lemma split_app (new2 new1 later earlier : trace) ev :
  new2 ++ new1 = later ++ ev :: earlier ->
  (exists e2, new2 = later ++ ev :: e2 /\ earlier = e2 ++ new1)
  \/ (exists l1, later = new2 ++ l1 /\ new1 = l1 ++ ev :: earlier).
Proof.
  revert later. induction new2 as [|x new2 IH]; intros later E; simpl in E.
  - right. exists later. auto.
  - destruct later as [|y later]; simpl in E.
    + inversion E; subst. left. exists new2. auto.
    + inversion E; subst. destruct (IH later H1) as [(e2 & -> & ->) | (l1 & -> & ->)].
      * left. exists e2. auto.
      * right. exists l1. auto.
Qed.

Lemma count_zero_in k (t : trace) ev :
  count k t = 0 -> In ev t -> k ev = false.
Proof.
  intros H0 Hin. destruct (k ev) eqn:Hk; [|reflexivity].
  pose proof (count_in k ev t Hin Hk). lia.
Qed.

Lemma none_after_absent k1 k2 (t : trace) : count k1 t = 0 -> none_after k1 k2 t.
Proof.
  intros H0 later ev earlier -> Hk.
  assert (k1 ev = false).
  { apply (count_zero_in k1 _ ev H0). apply in_elt. }
  congruence.
Qed.

Lemma ordered_absent {A} k1 k2 (m : M A) : at_most k1 0 m -> ordered k1 k2 m.
Proof.
  intros Hm h r new E. apply none_after_absent.
  pose proof (Hm _ _ _ E). lia.
Qed.

Lemma ordered_call k1 k2 c : ordered k1 k2 (call c).
Proof.
  intros h r new E later ev earlier Ev Hk. unfold call in E.
  assert (new = [Call c]) as -> by (destruct (raises fw h c); inversion E; auto).
  destruct later as [|x later]; [reflexivity|].
  inversion Ev. destruct later; discriminate.
Qed.

(** The events of kind [k1] are all in what follows; what the first part is
    known to return may be used there. *)
Lemma ordered_bind_early_at {A B} k1 k2 (m : M A) (f : A -> M B)
    (R : A -> Prop) :
  at_most k1 0 m ->
  (forall h a new, m h = (inr a, new) -> R a) ->
  (forall a, R a -> ordered k1 k2 (f a)) ->
  ordered k1 k2 (bind m f).
Proof.
  intros Hm HR Hf h r new E. unfold bind in E.
  destruct (m h) as [[e|a] new1] eqn:E1.
  - inversion E; subst. apply none_after_absent.
    pose proof (Hm _ _ _ E1). lia.
  - destruct (f a (new1 ++ h)) as [r2 new2] eqn:E2. inversion E; subst.
    intros later ev earlier Ev Hk.
    destruct (split_app _ _ _ _ _ Ev) as [(e2 & E3 & _) | (l1 & _ & E3)].
    + exact (Hf a (HR _ _ _ E1) _ _ _ E2 later ev e2 E3 Hk).
    + assert (k1 ev = false).
      { apply (count_zero_in k1 new1).
        - pose proof (Hm _ _ _ E1). lia.
        - rewrite E3. apply in_elt. }
      congruence.
Qed.

Lemma ordered_bind_early {A B} k1 k2 (m : M A) (f : A -> M B) :
  at_most k1 0 m -> (forall a, ordered k1 k2 (f a)) ->
  ordered k1 k2 (bind m f).
Proof.
  intros Hm Hf. apply ordered_bind_early_at with (R := fun _ => True); auto.
Qed.

Lemma returning_value {A} c (a a' : A) h new :
  returning c a h = (inr a', new) -> a = a'.
Proof.
  unfold returning, bind, call, ret.
  destruct (raises fw h c); intros E; inversion E; reflexivity.
Qed.

Lemma ordered_bind_returning {A B} k1 k2 c (a : A) (f : A -> M B) :
  k1 (Call c) = false -> ordered k1 k2 (f a) ->
  ordered k1 k2 (bind (returning c a) f).
Proof.
  intros Hc Hf. apply ordered_bind_early_at with (R := eq a).
  - unfold returning. apply at_most_bind_none.
    + apply at_most_call_none. exact Hc.
    + intros _. apply at_most_ret.
  - intros h a' new. apply returning_value.
  - intros a' <-. exact Hf.
Qed.

(** The events of kind [k2] are all in what comes first. *)
Lemma ordered_bind_late {A B} k1 k2 (m : M A) (f : A -> M B) :
  ordered k1 k2 m -> (forall a, at_most k2 0 (f a)) ->
  ordered k1 k2 (bind m f).
Proof.
  intros Hm Hf h r new E. unfold bind in E.
  destruct (m h) as [[e|a] new1] eqn:E1.
  - inversion E; subst. exact (Hm _ _ _ E1).
  - destruct (f a (new1 ++ h)) as [r2 new2] eqn:E2. inversion E; subst.
    pose proof (Hf a _ _ _ E2) as H2.
    intros later ev earlier Ev Hk.
    destruct (split_app _ _ _ _ _ Ev) as [(e2 & E3 & _) | (l1 & -> & E3)].
    + rewrite E3, count_app in H2. lia.
    + rewrite count_app. pose proof (Hm _ _ _ E1 l1 ev earlier E3 Hk). lia.
Qed.

(** Walk to the first statement that adds an event of kind [k1]; nothing of
    kind [k2] may follow it. *)
Ltac in_order :=
  cbv beta iota;
  lazymatch goal with
  | |- ordered _ _ (bind (returning _ _) _) =>
      first [ apply ordered_bind_returning; [ reflexivity | in_order ]
            | apply ordered_bind_late;
              [ apply ordered_absent; solve [absent]
              | intros ?; split_pairs; solve [absent] ] ]
  | |- ordered _ _ (bind _ _) =>
      first [ apply ordered_bind_early;
              [ solve [absent] | intros ?; split_pairs; in_order ]
            | apply ordered_bind_late;
              [ solve [apply ordered_call]
              | intros ?; split_pairs; solve [absent] ] ]
  | |- ordered _ _ _ => apply ordered_absent; absent
  end.

Lemma ends_with_bind {A B} K (m : M A) (f : A -> M B) :
  (forall a, ends_with K (f a)) -> ends_with K (bind m f).
Proof.
  intros Hf h b new E. unfold bind in E.
  destruct (m h) as [[e|a] new1] eqn:E1; [discriminate|].
  destruct (f a (new1 ++ h)) as [r2 new2] eqn:E2. inversion E; subst.
  destruct (Hf a _ _ _ E2) as (ev & rest & -> & HK).
  exists ev, (rest ++ new1). auto.
Qed.

Lemma ends_with_call K c : K (Call c) -> ends_with K (call c).
Proof.
  intros HK h a new E. unfold call in E.
  destruct (raises fw h c); inversion E; subst. exists (Call c), []. auto.
Qed.

(** *** What comes before what *)

Lemma precedes_absent {A} K k (m : M A) : at_most k 0 m -> precedes K k m.
Proof.
  intros Hm h r new later ev earlier E -> Hk.
  assert (k ev = false).
  { apply (count_zero_in k (later ++ ev :: earlier)).
    - pose proof (Hm _ _ _ E). lia.
    - apply in_elt. }
  congruence.
Qed.

(** The first part adds the event looked for, and nothing of kind [k]. *)
Lemma precedes_found {A B} K k (m : M A) (f : A -> M B) :
  reaches K m -> at_most k 0 m -> precedes K k (bind m f).
Proof.
  intros HK Hm h r new later ev earlier E Ev Hk. unfold bind in E.
  destruct (m h) as [[e|a] new1] eqn:E1.
  - injection E as _ En. rewrite <- En in Ev.
    assert (k ev = false); [|congruence].
    apply (count_zero_in k new1).
    + pose proof (Hm _ _ _ E1). lia.
    + rewrite Ev. apply in_elt.
  - destruct (f a (new1 ++ h)) as [r2 new2] eqn:E2.
    injection E as _ En. rewrite <- En in Ev.
    destruct (split_app _ _ _ _ _ Ev) as [(e2 & _ & ->) | (l1 & _ & E3)].
    + apply Exists_app. right. exact (HK _ _ _ E1).
    + assert (k ev = false); [|congruence].
      apply (count_zero_in k new1).
      * pose proof (Hm _ _ _ E1). lia.
      * rewrite E3. apply in_elt.
Qed.

(** The first part adds nothing of kind [k]; what it is known to return may
    be used in what follows. *)
Lemma precedes_skip_at {A B} K k (m : M A) (f : A -> M B) (R : A -> Prop) :
  at_most k 0 m ->
  (forall h a new, m h = (inr a, new) -> R a) ->
  (forall a, R a -> precedes K k (f a)) ->
  precedes K k (bind m f).
Proof.
  intros Hm HR Hf h r new later ev earlier E Ev Hk. unfold bind in E.
  destruct (m h) as [[e|a] new1] eqn:E1.
  - injection E as _ En. rewrite <- En in Ev.
    assert (k ev = false); [|congruence].
    apply (count_zero_in k new1).
    + pose proof (Hm _ _ _ E1). lia.
    + rewrite Ev. apply in_elt.
  - destruct (f a (new1 ++ h)) as [r2 new2] eqn:E2.
    injection E as _ En. rewrite <- En in Ev.
    destruct (split_app _ _ _ _ _ Ev) as [(e2 & E3 & ->) | (l1 & _ & E3)].
    + apply Exists_app. left.
      exact (Hf a (HR _ _ _ E1) _ _ _ _ _ _ E2 E3 Hk).
    + assert (k ev = false); [|congruence].
      apply (count_zero_in k new1).
      * pose proof (Hm _ _ _ E1). lia.
      * rewrite E3. apply in_elt.
Qed.

Lemma precedes_skip {A B} K k (m : M A) (f : A -> M B) :
  at_most k 0 m -> (forall a, precedes K k (f a)) -> precedes K k (bind m f).
Proof.
  intros Hm Hf. apply precedes_skip_at with (R := fun _ => True); auto.
Qed.

Lemma precedes_skip_with {A B} K k P U (m : M A) (f : A -> M B) R :
  sound P U m R -> at_most k 0 m ->
  (forall a, R a -> precedes K k (f a)) ->
  precedes K k (bind m f).
Proof.
  intros Hs Hm Hf. apply precedes_skip_at with (R := R); [exact Hm | | exact Hf].
  intros h a new E. destruct (Hs _ _ _ E) as (_ & _ & HR). apply HR. reflexivity.
Qed.

(** Walk to the statement that makes the call looked for. *)
Ltac lead_with leaf :=
  cbv beta iota;
  lazymatch goal with
  | |- precedes _ _ (bind _ _) =>
      first [ apply precedes_found;
              [ solve [first [apply reaches_call | apply reaches_returning];
                       cbv beta; leaf]
              | solve [absent] ]
            | apply precedes_skip;
              [ solve [absent] | intros ?; split_pairs; lead_with leaf ] ]
  end.

Ltac lead := lead_with ltac:(reflexivity).

(** The encoder, the decoder and the cost are known from the first block
    on. *)
Ltac known_bricks :=
  apply precedes_skip; [ solve [absent] | intros _ ];
  eapply precedes_skip_with with (P := fun _ => True) (U := fun _ => True);
    [ walk ltac:(exact I) | solve [absent] | intros ? <- ];
  apply precedes_skip; [ solve [absent] | intros _ ];
  eapply precedes_skip_with with (P := fun _ => True) (U := fun _ => True);
    [ apply sound_local_bound | solve [absent] | intros ? <- ];
  cbv beta iota.

(** *** Two runs side by side *)






(** ** The run of [main] *)

Lemma run_eq :
  main config tr_stream dev_stream use_bokeh [] = (outcome, events).
Proof. unfold outcome, events. apply surjective_pairing. Qed.

Lemma events_explained ev : In ev events -> explained ev.
Proof.
  destruct (main_sound [] _ _ run_eq) as (HP & _ & _).
  rewrite Forall_forall in HP. apply HP.
Qed.

Lemma outcome_explained : outcome_ok may_be_unbound [] outcome events.
Proof.
  destruct (main_sound [] _ _ run_eq) as (_ & Hc & _). apply Hc. exact I.
Qed.

Lemma completed_reaches K :
  reaches K (main config tr_stream dev_stream use_bokeh) ->
  completed -> exists ev, In ev events /\ K ev.
Proof.
  intros HK Hc. apply Exists_exists. unfold completed in Hc.
  apply (HK [] tt). rewrite run_eq, Hc. reflexivity.
Qed.

Lemma run_inv l : ran l -> l = the_main_loop.
Proof. intros H. exact (events_explained _ H). Qed.

Lemma eval_inv source locals :
  In (Call (call_eval source locals)) events ->
  source = step_rule config /\ locals = the_frame.
Proof. intros H. exact (events_explained _ H). Qed.

(** What precedes the call of [run], in a run that made it. *)
Lemma before_run K l :
  precedes K is_run (main config tr_stream dev_stream use_bokeh) ->
  ran l -> exists ev, In ev events /\ K ev.
Proof.
  intros HK Hl. destruct (in_split _ _ Hl) as (later & earlier & Ev).
  specialize (HK [] _ _ _ _ _ run_eq Ev eq_refl).
  apply Exists_exists in HK. destruct HK as (ev & Hin & Hev).
  exists ev. split; [|exact Hev]. rewrite Ev. apply in_or_app. right. right.
  exact Hin.
Qed.

(** The main loop is only run after config['step_rule'] was evaluated. *)
Lemma ran_evaluated l :
  ran l -> In (Call (call_eval (step_rule config) the_frame)) events.
Proof.
  intros Hl.
  destruct (@before_run (fun ev => exists s fr, ev = Call (call_eval s fr)) l)
    as (ev & Hev & s & fr & ->); [| exact Hl |].
  - open_main. lead_with ltac:(repeat eexists).
  - destruct (eval_inv _ _ Hev) as [<- <-]. exact Hev.
Qed.

Lemma completed_ran : completed -> ran the_main_loop.
Proof.
  intros Hc.
  destruct (@completed_reaches (fun ev => exists l, ev = Call (main_loop_run l)))
    as (ev & Hin & l & ->); [| exact Hc |].
  - open_main. seek.
  - rewrite <- (run_inv _ Hin). exact Hin.
Qed.


Lemma clean_split later c h :
  clean (later ++ Call c :: h) -> raises fw h c = None.
Proof.
  induction later as [|ev later IH]; simpl.
  - intros [H _]. exact H.
  - destruct ev; [exact IH | intros [_ H]; exact (IH H)].
Qed.

Lemma words_or_audio :
  {words = true} + {words = false /\ audio = true}
  + {words = false /\ audio = false}.
Proof. destruct words, audio; auto. Qed.

(** A run on an input kind that is neither "words" nor "audio". *)
Lemma run_other_input :
  words = false -> audio = false ->
  outcome = inl (UnboundLocalError "cost")
  /\ events = [Log (message "Creating computational graph");
               Log (message "Creating theano variables")].
Proof.
  unfold words, audio, outcome, events, main. intros Hw Ha.
  rewrite Hw, Ha. split; reflexivity.
Qed.

(** When the input kind is known and no call raises, [main] returns. *)
Lemma main_completes :
  words = true \/ audio = true ->
  (forall h c, raises fw h c = None) -> completed.
Proof.
  intros Hin Hq. unfold completed.
  pose proof outcome_explained as H. unfold outcome_ok in H.
  destruct outcome as [e|[]]; [|reflexivity].
  destruct H as [(c & new' & _ & _ & Hr) | (x & _ & (_ & Hw & Ha) & _)].
  - rewrite Hq in Hr. discriminate.
  - destruct Hin; congruence.
Qed.

Lemma the_encoder_words : words = true -> the_encoder = words_encoder.
Proof. unfold the_encoder. intros ->. reflexivity. Qed.

Lemma the_encoder_audio : words = false -> the_encoder = audio_encoder.
Proof. unfold the_encoder. intros ->. reflexivity. Qed.



Lemma the_encoder_not_decoder : the_encoder <> the_decoder.
Proof. unfold the_encoder, the_decoder. destruct words; discriminate. Qed.




(** C7.  [main] handles no error.  On an input kind that is neither "words"
    nor "audio" it raises the unbound [cost] right after the second log line.
    A call that raises is the last thing a run does, and the run ends with
    that very exception.  And a run that ends with an exception either got it
    from its last call, or it is the unbound [cost] of an unknown input kind. *)
Theorem failures_propagate :
  (input config <> "words" -> input config <> "audio" ->
   outcome = inl (UnboundLocalError "cost")
   /\ events = [Log (message "Creating computational graph");
                Log (message "Creating theano variables")])
  /\ (forall later c h e,
        events = later ++ Call c :: h -> raises fw h c = Some e ->
        later = [] /\ outcome = inl e)
  /\ (forall e, outcome = inl e ->
        (exists c h, events = Call c :: h /\ raises fw h c = Some e)
        \/ (e = UnboundLocalError "cost"
            /\ input config <> "words" /\ input config <> "audio")).
Proof.
  pose proof outcome_explained as H. unfold outcome_ok in H.
  split; [|split].
  - intros Hw Ha. apply String.eqb_neq in Hw, Ha.
    exact (run_other_input Hw Ha).
  - intros later c h e Ev Hr. destruct outcome as [e0|u].
    + destruct H as [(c0 & new' & E0 & Hcl & Hr0) | (x & _ & _ & Hcl)].
      * rewrite app_nil_r in Hcl, Hr0. rewrite E0 in Ev.
        destruct later as [|ev later]; simpl in Ev.
        -- inversion Ev; subst. split; [reflexivity | congruence].
        -- inversion Ev; subst. apply clean_split in Hcl. congruence.
      * rewrite app_nil_r, Ev in Hcl. apply clean_split in Hcl. congruence.
    + rewrite app_nil_r, Ev in H. apply clean_split in H. congruence.
  - intros e He. rewrite He in H.
    destruct H as [(c0 & new' & E0 & Hcl & Hr0) | (x & -> & (-> & Hw & Ha) & _)].
    + left. exists c0, new'. rewrite app_nil_r in Hr0. auto.
    + right. split; [reflexivity|].
      split; apply String.eqb_neq; assumption.
Qed.

(** *** The list of extensions *)

Lemma in_if_singleton {A} (c : bool) (x e : A) :
  In e (if c then [x] else []) <-> c = true /\ e = x.
Proof.
  destruct c; simpl; split.
  - intros [H|[]]. auto.
  - intros [_ H]. auto.
  - intros [].
  - intros [H _]. discriminate.
Qed.

(** The list that [main] assembles: the four fixed extensions, then the
    optional ones in the order of the tests. *)
Lemma extensions_layout :
  extensions4 =
    base_extensions
    ++ (if sampler_on then [the_sampler] else [])
    ++ (if validator_on then [the_validator] else [])
    ++ (if reload_on then [LoadNMT (saveto config)] else [])
    ++ (if plot_on then [the_plot] else []).
Proof.
  unfold extensions4, extensions3, extensions2, extensions1.
  destruct sampler_on, validator_on, reload_on, plot_on; reflexivity.
Qed.

Lemma assembled_layout exts : assembled exts -> exts = extensions4.
Proof.
  intros (source & locals & H & ->).
  destruct (eval_inv _ _ H) as [_ ->]. reflexivity.
Qed.

(** The main loop is given the list as the evaluation of config['step_rule']
    left it. *)
Lemma ran_extensions l : ran l -> ml_extensions l = extensions5.
Proof. intros H. rewrite (run_inv _ H). reflexivity. Qed.

Lemma loop_extensions l :
  ran l ->
  (exists source locals,
     In (Call (call_eval source locals)) events
     /\ ml_extensions l = extensions_after_eval fw source locals)
  /\ (list_kept -> assembled (ml_extensions l)).
Proof.
  intros Hl. pose proof (ran_evaluated _ Hl) as He.
  rewrite (ran_extensions _ Hl). split.
  - exists (step_rule config), the_frame. split; [exact He | reflexivity].
  - intros Hk. exists (step_rule config), the_frame. split; [exact He|].
    exact (Hk _ _ He).
Qed.

Lemma in_extensions e :
  In e extensions4 <->
  In e base_extensions
  \/ (sampler_on = true /\ e = the_sampler)
  \/ (validator_on = true /\ e = the_validator)
  \/ (reload_on = true /\ e = LoadNMT (saveto config))
  \/ (plot_on = true /\ e = the_plot).
Proof.
  rewrite extensions_layout, !in_app_iff, !in_if_singleton. tauto.
Qed.

Lemma base_not_optional e : In e base_extensions -> is_optional e = false.
Proof.
  unfold base_extensions. simpl.
  intros [<-|[<-|[<-|[<-|[]]]]]; reflexivity.
Qed.

Lemma sampler_on_ge : sampler_on = true <-> (hook_samples config >= 1)%Z.
Proof. unfold sampler_on. rewrite Z.geb_le. lia. Qed.

Lemma validator_on_not_None :
  validator_on = true <-> f1_validation config <> PyNone.
Proof.
  unfold validator_on. destruct (f1_validation config); simpl; split;
    congruence.
Qed.

(** C2, as amended.  The Sampler is in the list of extensions that [main]
    assembles (the list as it stands when config['step_rule'] is evaluated)
    exactly when config['hook_samples'] >= 1, and it is then built with
    hook_samples=config['hook_samples'],
    every_n_batches=config['sampling_freq'],
    src_vocab_size=config['src_vocab_size'] and the training stream; no
    Sampler is ever constructed by [main] otherwise.  The main loop is given
    that list as the evaluation of config['step_rule'] left it: the same
    list, when the evaluation did not change it. *)
Theorem sampler_attached_iff :
  (forall exts, assembled exts ->
     ((exists e, In e exts /\ is_Sampler e = true)
      <-> (hook_samples config >= 1)%Z)
     /\ (forall e, In e exts -> is_Sampler e = true ->
         exists m,
           e = Sampler m tr_stream (src_vocab config) (trg_vocab config)
                 (hook_samples config) (sampling_freq config)
                 (src_vocab_size config)))
  /\ (forall l, ran l ->
        (exists source locals,
           In (Call (call_eval source locals)) events
           /\ ml_extensions l = extensions_after_eval fw source locals)
        /\ (list_kept -> assembled (ml_extensions l)))
  /\ (forall e, In (Call (new_extension e)) events -> is_Sampler e = true ->
      (hook_samples config >= 1)%Z)
  /\ (completed -> exists l, ran l).
Proof.
  split; [|split; [|split]].
  - intros exts Ha. rewrite (assembled_layout _ Ha). split.
    + rewrite <- sampler_on_ge. split.
      * intros (e & He & Hs). apply in_extensions in He.
        destruct He as [He | [[Hon _] | [[_ ->] | [[_ ->] | [_ ->]]]]];
          try discriminate; [|exact Hon].
        apply base_not_optional in He. unfold is_optional in He.
        rewrite Hs in He. discriminate.
      * intros Hon. exists the_sampler. split; [|reflexivity].
        apply in_extensions. auto.
    + intros e He Hs. apply in_extensions in He.
      destruct He as [He | [[_ ->] | [[_ ->] | [[_ ->] | [_ ->]]]]];
        try discriminate.
      * apply base_not_optional in He. unfold is_optional in He.
        rewrite Hs in He. discriminate.
      * exists search_model. reflexivity.
  - exact loop_extensions.
  - intros e He Hs. apply sampler_on_ge.
    pose proof (events_explained _ He) as E. simpl in E.
    destruct e; try discriminate. apply E.
  - intros Hc. exists the_main_loop. exact (completed_ran Hc).
Qed.

(** C3, as amended.  The F1Validator is in the list of extensions that
    [main] assembles exactly when config['f1_validation'] is not None, and it
    is then built with normalize=config['normalized_f1'],
    every_n_batches=config['f1_val_freq'] and the development stream; no
    F1Validator is ever constructed by [main] otherwise.  The main loop is
    given that list as the evaluation of config['step_rule'] left it. *)
Theorem validator_attached_iff :
  (forall exts, assembled exts ->
     ((exists e, In e exts /\ is_F1Validator e = true)
      <-> f1_validation config <> PyNone)
     /\ (forall e, In e exts -> is_F1Validator e = true ->
         exists s m,
           e = F1Validator s config m dev_stream (normalized_f1 config)
                 (f1_val_freq config)))
  /\ (forall l, ran l ->
        (exists source locals,
           In (Call (call_eval source locals)) events
           /\ ml_extensions l = extensions_after_eval fw source locals)
        /\ (list_kept -> assembled (ml_extensions l)))
  /\ (forall e, In (Call (new_extension e)) events -> is_F1Validator e = true ->
      f1_validation config <> PyNone)
  /\ (completed -> exists l, ran l).
Proof.
  split; [|split; [|split]].
  - intros exts Ha. rewrite (assembled_layout _ Ha). split.
    + rewrite <- validator_on_not_None. split.
      * intros (e & He & Hs). apply in_extensions in He.
        destruct He as [He | [[_ ->] | [[Hon _] | [[_ ->] | [_ ->]]]]];
          try discriminate; [|exact Hon].
        apply base_not_optional in He. unfold is_optional in He.
        rewrite Hs, orb_true_r in He. discriminate.
      * intros Hon. exists the_validator. split; [|reflexivity].
        apply in_extensions. auto.
    + intros e He Hs. apply in_extensions in He.
      destruct He as [He | [[_ ->] | [[_ ->] | [[_ ->] | [_ ->]]]]];
        try discriminate.
      * apply base_not_optional in He. unfold is_optional in He.
        rewrite Hs, orb_true_r in He. discriminate.
      * exists samples, search_model. reflexivity.
  - exact loop_extensions.
  - intros e He Hs. apply validator_on_not_None.
    pose proof (events_explained _ He) as E. simpl in E.
    destruct e; try discriminate. apply E.
  - intros Hc. exists the_main_loop. exact (completed_ran Hc).
Qed.

(** C4, as amended.  Whatever the optional keys, the list of extensions that
    [main] assembles starts with
    FinishAfter(after_n_batches=config['finish_after']),
    TrainingDataMonitoring of the cost after every batch, Printing after
    every batch and CheckpointNMT(config['saveto']) every config['save_freq']
    batches, in this order; only optional extensions follow.  The checkpoint
    has been constructed whenever config['step_rule'] is evaluated, so
    before any main loop is built.  The main loop is given the list as that
    evaluation left it. *)
Theorem fixed_extensions_first :
  (forall exts, assembled exts ->
     exists cost rest,
       (forall l, ran l -> ml_model l = Model cost)
       /\ exts =
            FinishAfter (finish_after config)
            :: TrainingDataMonitoring [cost] true
            :: Printing true
            :: CheckpointNMT (saveto config) (save_freq config)
            :: rest
       /\ Forall (fun e => is_optional e = true) rest)
  /\ (forall l, ran l ->
        (exists source locals,
           In (Call (call_eval source locals)) events
           /\ ml_extensions l = extensions_after_eval fw source locals)
        /\ (list_kept -> assembled (ml_extensions l)))
  /\ (forall later source locals earlier,
        events = later ++ Call (call_eval source locals) :: earlier ->
        In (Call (new_extension
                    (CheckpointNMT (saveto config) (save_freq config))))
           earlier)
  /\ (completed -> exists l, ran l).
Proof.
  split; [|split; [|split]].
  - intros exts Ha. rewrite (assembled_layout _ Ha).
    exists the_cost. eexists. split; [|split].
    + intros l Hl. rewrite (run_inv _ Hl). reflexivity.
    + rewrite extensions_layout. reflexivity.
    + destruct sampler_on, validator_on, reload_on, plot_on; simpl;
        repeat constructor.
  - exact loop_extensions.
  - intros later source locals earlier Ev.
    assert (H : precedes
                  (fun ev => ev = Call (new_extension
                                          (CheckpointNMT (saveto config)
                                             (save_freq config))))
                  is_eval (main config tr_stream dev_stream use_bokeh)).
    { open_main. lead. }
    specialize (H [] _ _ _ _ _ run_eq Ev eq_refl).
    apply Exists_exists in H. destruct H as (ev & Hin & ->). exact Hin.
  - intros Hc. exists the_main_loop. exact (completed_ran Hc).
Qed.

(** C8, as amended.  LoadNMT(config['saveto']) is in the list of extensions
    that [main] assembles exactly when config['reload'] is truthy.  It then
    comes after the four fixed extensions (checkpointing among them) and
    after the Sampler and the F1Validator when these are attached; only the
    plot can follow.  The main loop is given the list as the evaluation of
    config['step_rule'] left it. *)
Theorem reload_attached_iff :
  (forall exts, assembled exts ->
     ((exists e, In e exts /\ is_LoadNMT e = true)
      <-> truthy (reload config) = true)
     /\ (truthy (reload config) = true ->
         exists cost middle after,
           exts =
             (FinishAfter (finish_after config)
              :: TrainingDataMonitoring [cost] true
              :: Printing true
              :: CheckpointNMT (saveto config) (save_freq config)
              :: middle)
             ++ LoadNMT (saveto config) :: after
           /\ Forall (fun e => is_Sampler e || is_F1Validator e = true) middle
           /\ Forall (fun e => is_Plot e = true) after
           /\ ((hook_samples config >= 1)%Z ->
               exists e, In e middle /\ is_Sampler e = true)
           /\ (f1_validation config <> PyNone ->
               exists e, In e middle /\ is_F1Validator e = true)))
  /\ (forall l, ran l ->
        (exists source locals,
           In (Call (call_eval source locals)) events
           /\ ml_extensions l = extensions_after_eval fw source locals)
        /\ (list_kept -> assembled (ml_extensions l)))
  /\ (forall e, In (Call (new_extension e)) events -> is_LoadNMT e = true ->
      truthy (reload config) = true)
  /\ (completed -> exists l, ran l).
Proof.
  split; [|split; [|split]].
  - intros exts Ha. rewrite (assembled_layout _ Ha). split.
    + fold reload_on. split.
      * intros (e & He & Hs). apply in_extensions in He.
        destruct He as [He | [[_ ->] | [[_ ->] | [[Hon _] | [_ ->]]]]];
          try discriminate; [|exact Hon].
        apply base_not_optional in He. unfold is_optional in He.
        rewrite Hs, orb_true_r in He. simpl in He. discriminate.
      * intros Hon. exists (LoadNMT (saveto config)). split; [|reflexivity].
        apply in_extensions. auto 6.
    + fold reload_on. intros Hon. rewrite extensions_layout, Hon.
      exists the_cost,
        ((if sampler_on then [the_sampler] else [])
         ++ (if validator_on then [the_validator] else [])),
        (if plot_on then [the_plot] else []).
      split; [|split; [|split; [|split]]].
      * unfold base_extensions. simpl. rewrite <- app_assoc. reflexivity.
      * destruct sampler_on, validator_on; simpl; repeat constructor.
      * destruct plot_on; repeat constructor.
      * rewrite <- sampler_on_ge. intros ->. exists the_sampler.
        split; [left|]; reflexivity.
      * rewrite <- validator_on_not_None. intros ->. exists the_validator.
        split; [|reflexivity]. apply in_app_iff. right. left. reflexivity.
  - exact loop_extensions.
  - intros e He Hs. fold reload_on.
    pose proof (events_explained _ He) as E. simpl in E.
    destruct e; try discriminate. apply E.
  - intros Hc. exists the_main_loop. exact (completed_ran Hc).
Qed.

(** *** Regularisation *)

Lemma graph1_dropout : has_dropout graph1 = dropout_on.
Proof. unfold graph1. destruct dropout_on; reflexivity. Qed.

Lemma graph2_dropout : has_dropout graph2 = dropout_on.
Proof. unfold graph2. destruct noise_on; simpl; apply graph1_dropout. Qed.

Lemma graph1_noise : has_noise graph1 = false.
Proof. unfold graph1. destruct dropout_on; reflexivity. Qed.

Lemma graph2_noise : has_noise graph2 = noise_on.
Proof. unfold graph2. destruct noise_on; simpl; auto using graph1_noise. Qed.

Lemma in_dropout_inputs x :
  In x dropout_inputs <->
  In x (intermediary_variables fw graph0)
  /\ var_name fw x = Some "maxout_apply_output".
Proof.
  unfold dropout_inputs. rewrite filter_In. unfold named.
  destruct (var_name fw x) as [n|].
  - destruct (String.eqb_spec n "maxout_apply_output") as [->|Hn].
    + tauto.
    + split; intros [H1 H2]; [discriminate | congruence].
  - split; intros [_ H]; discriminate.
Qed.

(** C5.  Dropout is applied exactly when config['dropout'] < 1.0.  Any call
    of apply_dropout is made under that test, on the graph of the cost, with
    config['dropout'], and on exactly the intermediary variables of that graph
    named 'maxout_apply_output'.  A run that returns under that test did make
    the call.  And the result replaces the graph: the graph whose parameters
    are read afterwards, and trained, has dropout applied exactly under that
    test. *)
Theorem dropout_applied_iff :
  (forall g vars p,
     In (Call (new_graph (apply_dropout g vars p))) events ->
     (dropout config <? 1.0)%float = true
     /\ p = dropout config
     /\ (exists cost, g = ComputationGraph cost
                      /\ forall l, ran l -> ml_model l = Model cost)
     /\ vars = filter (named "maxout_apply_output") (intermediary_variables fw g)
     /\ forall x, In x vars <->
                  In x (intermediary_variables fw g)
                  /\ var_name fw x = Some "maxout_apply_output")
  /\ (completed -> (dropout config <? 1.0)%float = true ->
      exists g vars,
        In (Call (new_graph (apply_dropout g vars (dropout config)))) events)
  /\ (forall g, In (Call (read_parameters g)) events ->
      has_dropout g = (dropout config <? 1.0)%float)
  /\ (forall l, ran l ->
      exists g cost rule mode,
        ml_algorithm l = GradientDescent cost (graph_parameters fw g) rule mode
        /\ has_dropout g = (dropout config <? 1.0)%float).
Proof.
  fold dropout_on. split; [|split; [|split]].
  - intros g vars p Hev.
    pose proof (events_explained _ Hev) as [Hon E]. inversion E; subst.
    split; [exact Hon|]. split; [reflexivity|]. split; [|split].
    + exists the_cost. split; [reflexivity|].
      intros l Hl. rewrite (run_inv _ Hl). reflexivity.
    + reflexivity.
    + apply in_dropout_inputs.
  - intros Hc Hon.
    destruct (@completed_reaches
                (fun ev => exists g vars p,
                     ev = Call (new_graph (apply_dropout g vars p))))
      as (ev & Hev & g & vars & p & ->); [| exact Hc |].
    + open_main. fold dropout_on. seek.
    + pose proof (events_explained _ Hev) as [_ E]. inversion E; subst.
      eauto.
  - intros g Hev. rewrite (events_explained _ Hev : g = graph2).
    apply graph2_dropout.
  - intros l Hl. rewrite (run_inv _ Hl).
    exists graph2, the_cost, the_rule, "warn". split; [reflexivity|].
    apply graph2_dropout.
Qed.

Lemma call_known_input c :
  In (Call c) events -> words = true \/ (words = false /\ audio = true).
Proof.
  intros Hc. destruct words_or_audio as [[Hw | Hwa] | [Hw Ha]]; auto.
  destruct (run_other_input Hw Ha) as [_ He]. rewrite He in Hc.
  destruct Hc as [Hc | [Hc | []]]; discriminate.
Qed.

(** The encoder of the branch that the input kind selects. *)
Lemma selected_encoder c :
  In (Call c) events ->
  (input config = "words" /\ the_encoder = words_encoder)
  \/ (input config = "audio" /\ the_encoder = audio_encoder).
Proof.
  intros Hc. destruct (call_known_input _ Hc) as [Hw | [Hw Ha]].
  - left. split; [apply String.eqb_eq; exact Hw | exact (the_encoder_words Hw)].
  - right. split; [apply String.eqb_eq; exact Ha | exact (the_encoder_audio Hw)].
Qed.

(** C6.  Weight noise is applied exactly when config['weight_noise_ff'] > 0.0.
    Any call of apply_noise is made under that test, with
    config['weight_noise_ff'], on the parameters of the lookup, fwd_fork and
    back_fork of the encoder of the selected branch, followed by those of the
    decoder's readout and fork (both of its sequence generator) and
    state_init.  A run that returns under that test did make the call, and
    the graph whose parameters are trained has noise applied exactly under
    that test. *)
Theorem weight_noise_applied_iff :
  (forall g params level,
     In (Call (new_graph (apply_noise g params level))) events ->
     (0.0 <? weight_noise_ff config)%float = true
     /\ level = weight_noise_ff config
     /\ exists encoder decoder,
          ((input config = "words" /\ encoder = words_encoder)
           \/ (input config = "audio" /\ encoder = audio_encoder))
          /\ decoder = the_decoder
          /\ params =
               ((get_params fw (attr encoder "lookup")
                 ++ get_params fw (attr encoder "fwd_fork"))
                ++ get_params fw (attr encoder "back_fork"))
               ++ ((get_params fw
                      (attr (attr decoder "sequence_generator") "readout")
                    ++ get_params fw
                         (attr (attr decoder "sequence_generator") "fork"))
                   ++ get_params fw (attr decoder "state_init")))
  /\ (completed -> (0.0 <? weight_noise_ff config)%float = true ->
      exists g params,
        In (Call (new_graph (apply_noise g params (weight_noise_ff config))))
           events)
  /\ (forall l, ran l ->
      exists g cost rule mode,
        ml_algorithm l = GradientDescent cost (graph_parameters fw g) rule mode
        /\ has_noise g = (0.0 <? weight_noise_ff config)%float).
Proof.
  fold noise_on. split; [|split].
  - intros g params level Hev.
    pose proof (events_explained _ Hev) as [Hon E]. inversion E; subst.
    split; [exact Hon|]. split; [reflexivity|].
    exists the_encoder, the_decoder.
    split; [exact (selected_encoder _ Hev) | split; reflexivity].
  - intros Hc Hon.
    destruct (@completed_reaches
                (fun ev => exists g params level,
                     ev = Call (new_graph (apply_noise g params level))))
      as (ev & Hev & g & params & level & ->); [| exact Hc |].
    + open_main. fold noise_on. seek.
    + pose proof (events_explained _ Hev) as [_ E]. inversion E; subst.
      eauto.
  - intros l Hl. rewrite (run_inv _ Hl).
    exists graph2, the_cost, the_rule, "warn". split; [reflexivity|].
    apply graph2_noise.
Qed.

(** *** The sampling graph *)


Lemma sampling_on_test :
  sampling_on = true <->
  (hook_samples config >= 1)%Z \/ f1_validation config <> PyNone.
Proof.
  unfold sampling_on. rewrite orb_true_iff, sampler_on_ge, validator_on_not_None.
  tauto.
Qed.







(** *** The training algorithm *)

(** C10.  The step rule of the training algorithm is
    CompositeRule([StepClipping(config['step_clipping']), R()]) where R is
    what eval gave for the string config['step_rule'] in the frame of
    [main]: the clipping comes first and the configured rule second, and the
    clipping is constructed before the string is evaluated.  eval is only
    ever called on that string.  Whenever the main loop is run, and so in
    every run that returns, whatever the string: eval was called on it, its
    result was called, the composite rule and the GradientDescent algorithm
    with that rule were constructed, and the main loop that is run was built
    with that algorithm. *)
Theorem step_rule_evaluated :
  (forall a, In (Call (new_algorithm a)) events ->
     exists cost params locals,
       a = GradientDescent cost params
             (CompositeRule
                [StepClipping (step_clipping config);
                 called (py_eval (step_rule config) locals)])
             "warn")
  /\ (forall l, ran l ->
      exists cost params locals,
        ml_algorithm l =
          GradientDescent cost params
            (CompositeRule
               [StepClipping (step_clipping config);
                called (py_eval (step_rule config) locals)])
            "warn"
        /\ In (Call (new_step_rule (StepClipping (step_clipping config))))
              events
        /\ In (Call (call_eval (step_rule config) locals)) events
        /\ In (Call (new_step_rule
                       (called (py_eval (step_rule config) locals)))) events
        /\ In (Call (new_step_rule
                       (CompositeRule
                          [StepClipping (step_clipping config);
                           called (py_eval (step_rule config) locals)])))
              events
        /\ In (Call (new_algorithm (ml_algorithm l))) events
        /\ In (Call (new_main_loop l)) events)
  /\ (forall s locals, In (Call (call_eval s locals)) events ->
      s = step_rule config)
  /\ (forall later s locals earlier,
        events = later ++ Call (call_eval s locals) :: earlier ->
        In (Call (new_step_rule (StepClipping (step_clipping config))))
           earlier)
  /\ (completed -> exists l, ran l).
Proof.
  split; [|split; [|split; [|split]]].
  - intros a Ha. rewrite (events_explained _ Ha : a = the_algorithm).
    exists the_cost, (graph_parameters fw graph2), the_frame. reflexivity.
  - intros l Hl.
    exists the_cost, (graph_parameters fw graph2), the_frame.
    fold the_rule. fold the_algorithm.
    split; [rewrite (run_inv _ Hl); reflexivity|].
    split; [|split; [exact (ran_evaluated _ Hl)|split; [|split; [|split]]]].
    + destruct (@before_run
                  (fun ev => exists x, ev = Call (new_step_rule (StepClipping x)))
                  l) as (ev & Hev & x & ->); [| exact Hl |].
      * open_main. lead_with ltac:(repeat eexists).
      * destruct (events_explained _ Hev) as [E | [E | E]];
          try discriminate E. rewrite <- E. exact Hev.
    + destruct (@before_run
                  (fun ev => exists f, ev = Call (new_step_rule (called f)))
                  l) as (ev & Hev & f & ->); [| exact Hl |].
      * open_main. lead_with ltac:(repeat eexists).
      * destruct (events_explained _ Hev) as [E | [E | E]];
          try discriminate E. rewrite <- E. exact Hev.
    + destruct (@before_run
                  (fun ev => exists cs,
                       ev = Call (new_step_rule (CompositeRule cs)))
                  l) as (ev & Hev & cs & ->); [| exact Hl |].
      * open_main. lead_with ltac:(repeat eexists).
      * destruct (events_explained _ Hev) as [E | [E | E]];
          try discriminate E. rewrite <- E. exact Hev.
    + destruct (@before_run (fun ev => exists a, ev = Call (new_algorithm a)) l)
        as (ev & Hev & a & ->); [| exact Hl |].
      * open_main. lead_with ltac:(repeat eexists).
      * rewrite (run_inv _ Hl).
        change (ml_algorithm the_main_loop) with the_algorithm.
        rewrite <- (events_explained _ Hev : a = the_algorithm). exact Hev.
    + destruct (@before_run (fun ev => exists l', ev = Call (new_main_loop l'))
                  l) as (ev & Hev & l' & ->); [| exact Hl |].
      * open_main. lead_with ltac:(repeat eexists).
      * rewrite (run_inv _ Hl).
        rewrite <- (events_explained _ Hev : l' = the_main_loop). exact Hev.
  - intros s locals Hs. exact (proj1 (eval_inv _ _ Hs)).
  - intros later s locals earlier Ev.
    assert (H : precedes
                  (fun ev => ev = Call (new_step_rule
                                          (StepClipping (step_clipping config))))
                  is_eval (main config tr_stream dev_stream use_bokeh)).
    { open_main. lead. }
    specialize (H [] _ _ _ _ _ run_eq Ev eq_refl).
    apply Exists_exists in H. destruct H as (ev & Hin & ->). exact Hin.
  - intros Hc. exists the_main_loop. exact (completed_ran Hc).
Qed.

(** ** Further properties of [main] *)

(** *** Order of events *)

(** X1.  The initialisation schemes are all in place before a brick is
    initialised: once [initialize()] has been called on the encoder or the
    decoder, no scheme is set and none is pushed down any more. *)
Theorem configured_before_initialize :
  none_after is_initialize is_configuring events.
Proof.
  assert (H : ordered is_initialize is_configuring
                (main config tr_stream dev_stream use_bokeh)).
  { open_main. in_order. }
  exact (H [] outcome events run_eq).
Qed.

(** X2.  The Orthogonal overrides of single sub-bricks come after the general
    schemes have been pushed down: no [push_initialization_config()] follows
    an override, so none is overwritten. *)
Theorem overrides_after_push :
  none_after is_override is_push events.
Proof.
  assert (H : ordered is_override is_push
                (main config tr_stream dev_stream use_bokeh)).
  { open_main. in_order. }
  exact (H [] outcome events run_eq).
Qed.

(** *** The training loop *)

Lemma runs_at_most_once :
  at_most is_run 1 (main config tr_stream dev_stream use_bokeh)
  /\ at_most is_new_main_loop 1 (main config tr_stream dev_stream use_bokeh).
Proof.
  split; (eapply at_most_weaken; [open_main; tally | simpl; lia]).
Qed.

(** X3.  A run that returns has built one main loop and run it once, as the
    last thing it did: it trains [Model(cost)] on the training stream, and the
    call of [run] is the latest event. *)
Theorem run_is_last :
  completed ->
  exists l earlier,
    events = Call (main_loop_run l) :: earlier
    /\ count is_run events = 1
    /\ count is_new_main_loop events = 1
    /\ In (Call (new_main_loop l)) earlier
    /\ ml_data_stream l = tr_stream.
Proof.
  intros Hc.
  assert (He : ends_with (fun ev => exists l, ev = Call (main_loop_run l))
                 (main config tr_stream dev_stream use_bokeh)).
  { open_main.
    repeat (apply ends_with_bind; intros ?; split_pairs; cbv beta iota).
    apply ends_with_call. eexists. reflexivity. }
  destruct (He [] tt events) as (ev & earlier & Ev & l & ->).
  { unfold completed in Hc. rewrite run_eq, Hc. reflexivity. }
  assert (Hr : ran l) by (unfold ran; rewrite Ev; left; reflexivity).
  assert (El := run_inv _ Hr).
  destruct (@completed_reaches
              (fun ev => exists l', ev = Call (new_main_loop l')))
    as (ev & Hev & l' & ->); [| exact Hc |].
  { open_main. seek. }
  rewrite (events_explained _ Hev : l' = the_main_loop), <- El in Hev.
  destruct runs_at_most_once as [H1 H2].
  specialize (H1 [] _ _ run_eq). specialize (H2 [] _ _ run_eq).
  pose proof (count_in is_run _ events Hr eq_refl).
  pose proof (count_in is_new_main_loop _ events Hev eq_refl).
  exists l, earlier. split; [exact Ev|].
  split; [lia|]. split; [lia|]. split.
  - rewrite Ev in Hev. destruct Hev as [Hev|Hev]; [discriminate Hev | exact Hev].
  - rewrite El. reflexivity.
Qed.

(** X4.  The main loop is wired on one cost: the model that is trained, the
    gradient descent and the monitoring that [main] constructs and puts in
    the list it assembles all take the variable that [decoder.cost]
    returned; the parameters that are trained are those of a graph built
    over that same cost, and the data is the training stream. *)
Theorem main_loop_wiring l :
  ran l ->
  exists cost g rule,
    ml_model l = Model cost
    /\ ml_algorithm l = GradientDescent cost (graph_parameters fw g) rule "warn"
    /\ underlying g = ComputationGraph cost
    /\ In (Call (new_extension (TrainingDataMonitoring [cost] true))) events
    /\ (forall vs b, In (Call (new_extension (TrainingDataMonitoring vs b)))
                       events -> vs = [cost] /\ b = true)
    /\ (forall exts, assembled exts ->
        In (TrainingDataMonitoring [cost] true) exts)
    /\ ml_data_stream l = tr_stream
    /\ (exists d r m y ym, cost = decoder_cost d r m y ym).
Proof.
  intros Hl.
  assert (Hm : forall vs b,
             In (Call (new_extension (TrainingDataMonitoring vs b))) events ->
             vs = [the_cost] /\ b = true).
  { intros vs b Hev. pose proof (events_explained _ Hev) as E. simpl in E.
    unfold base_extensions in E. simpl in E.
    destruct E as [E|[E|[E|[E|[]]]]]; try discriminate.
    inversion E. auto. }
  exists the_cost, graph2, the_rule.
  split; [rewrite (run_inv _ Hl); reflexivity|].
  split; [rewrite (run_inv _ Hl); reflexivity|].
  split; [|split; [|split; [exact Hm|split; [|split]]]].
  - unfold graph2, graph1, graph0.
    destruct noise_on, dropout_on; reflexivity.
  - destruct (@before_run
                (fun ev => exists vs b,
                     ev = Call (new_extension (TrainingDataMonitoring vs b)))
                l) as (ev & Hev & vs & b & ->); [| exact Hl |].
    + open_main. lead_with ltac:(repeat eexists).
    + destruct (Hm _ _ Hev) as [<- <-]. exact Hev.
  - intros exts Ha. rewrite (assembled_layout _ Ha).
    apply in_extensions. left. unfold base_extensions. simpl. auto.
  - rewrite (run_inv _ Hl). reflexivity.
  - unfold the_cost. eauto 10.
Qed.

(** *** Bricks *)

Lemma bricks_at_most_two :
  at_most is_new_brick 2 (main config tr_stream dev_stream use_bokeh).
Proof.
  destruct words_or_audio as [[Hw | [Hw Ha]] | [Hw Ha]];
    unfold words, audio in *; open_main; rewrite ?Hw, ?Ha;
    (eapply at_most_weaken; [tally | simpl; lia]).
Qed.

(** X5.  One encoder and one decoder serve the whole run: at most two bricks
    are constructed, the training graph and the sampling graph apply the same
    encoder, and the cost and the generated samples come from the same
    decoder. *)
Theorem bricks_are_shared :
  count is_new_brick events <= 2
  /\ exists encoder decoder,
       (forall b, In (Call (new_brick b)) events -> b = encoder \/ b = decoder)
       /\ (forall enc args,
             In (Call (new_variable (encoder_apply enc args))) events ->
             enc = encoder)
       /\ (forall d r m y ym,
             In (Call (new_variable (decoder_cost d r m y ym))) events ->
             d = decoder)
       /\ (forall d r,
             In (Call (new_variable (decoder_generate d r))) events ->
             d = decoder).
Proof.
  split; [exact (bricks_at_most_two [] _ _ run_eq)|].
  exists the_encoder, the_decoder. split; [|split; [|split]].
  - intros b Hb. exact (events_explained _ Hb).
  - intros enc args Hv.
    destruct (events_explained _ Hv) as [E | [_ E]].
    + unfold training_representation in E.
      destruct words; inversion E; reflexivity.
    + unfold sampling_representation in E.
      destruct words; inversion E; reflexivity.
  - intros d r m y ym Hv.
    pose proof (events_explained _ Hv) as E. inversion E. reflexivity.
  - intros d r Hv.
    destruct (events_explained _ Hv) as [_ E]. inversion E. reflexivity.
Qed.

(** *** Regularisation, composed *)

(** X6.  The regularisations compose in one order: the graph whose parameters
    are read (for printing, and for training) carries weight noise outermost,
    when config['weight_noise_ff'] > 0.0, over dropout, when
    config['dropout'] < 1.0, over the graph of the cost; each is applied at
    most once. *)
Theorem regularisations_in_order g :
  In (Call (read_parameters g)) events ->
  regularisations g =
    (if (0.0 <? weight_noise_ff config)%float then [Noise] else [])
    ++ (if (dropout config <? 1.0)%float then [Dropout] else [])
  /\ exists cost, underlying g = ComputationGraph cost
                  /\ forall l, ran l -> ml_model l = Model cost.
Proof.
  intros Hg. rewrite (events_explained _ Hg : g = graph2).
  fold noise_on dropout_on. unfold graph2, graph1, graph0. split.
  - destruct noise_on, dropout_on; reflexivity.
  - exists the_cost. split.
    + destruct noise_on, dropout_on; reflexivity.
    + intros l Hl. rewrite (run_inv _ Hl). reflexivity.
Qed.

(** *** The list of extensions, entire *)

(** X7.  The plot is in the list of extensions that [main] assembles (the
    list as it stands when config['step_rule'] is evaluated) exactly when
    [use_bokeh] is set and the plotting extension could be imported; it is
    then the last extension, plotting the channel 'decoder_cost_cost' after
    every batch, and no plot is constructed by [main] otherwise.  The main
    loop is given that list as the evaluation left it. *)
Theorem plot_attached_iff :
  (forall exts, assembled exts ->
     ((exists e, In e exts /\ is_Plot e = true)
      <-> use_bokeh = true /\ BOKEH_AVAILABLE fw = true)
     /\ (use_bokeh = true -> BOKEH_AVAILABLE fw = true ->
         exists front,
           exts = front ++ [Plot "Cs-En" [["decoder_cost_cost"]] true]
           /\ Forall (fun e => is_Plot e = false) front))
  /\ (forall l, ran l ->
        (exists source locals,
           In (Call (call_eval source locals)) events
           /\ ml_extensions l = extensions_after_eval fw source locals)
        /\ (list_kept -> assembled (ml_extensions l)))
  /\ (forall e, In (Call (new_extension e)) events -> is_Plot e = true ->
      use_bokeh = true /\ BOKEH_AVAILABLE fw = true).
Proof.
  assert (Hon : plot_on = true <-> use_bokeh = true /\ BOKEH_AVAILABLE fw = true).
  { unfold plot_on. apply andb_true_iff. }
  split; [|split].
  - intros exts Ha. rewrite (assembled_layout _ Ha). split.
    + rewrite <- Hon. split.
      * intros (e & He & Hs). apply in_extensions in He.
        destruct He as [He | [[_ ->] | [[_ ->] | [[_ ->] | [H _]]]]];
          try discriminate; [|exact H].
        apply base_not_optional in He. unfold is_optional in He.
        rewrite Hs, orb_true_r in He. discriminate.
      * intros H. exists the_plot. split; [|reflexivity].
        apply in_extensions. auto 6.
    + intros Hu Hb. assert (Hp : plot_on = true) by (apply Hon; auto).
      rewrite extensions_layout, Hp, !app_assoc. eexists. split; [reflexivity|].
      unfold base_extensions.
      destruct sampler_on, validator_on, reload_on; simpl; repeat constructor.
  - exact loop_extensions.
  - intros e He Hs. apply Hon.
    pose proof (events_explained _ He) as E. simpl in E.
    destruct e; try discriminate. apply E.
Qed.

(** X8.  The list of extensions that [main] assembles, in full: after the
    four fixed extensions come the Sampler, the F1Validator, LoadNMT and the
    plot, in the order of the tests, each one present or absent by its own
    test and never twice.  The main loop is given that list as the
    evaluation of config['step_rule'] left it. *)
Theorem extensions_in_order exts :
  assembled exts ->
  (exists cost search samples,
     exts =
       [FinishAfter (finish_after config);
        TrainingDataMonitoring [cost] true;
        Printing true;
        CheckpointNMT (saveto config) (save_freq config)]
       ++ (if (hook_samples config >=? 1)%Z
           then [Sampler search tr_stream (src_vocab config) (trg_vocab config)
                   (hook_samples config) (sampling_freq config)
                   (src_vocab_size config)]
           else [])
       ++ (if is_not_None (f1_validation config)
           then [F1Validator samples config search dev_stream
                   (normalized_f1 config) (f1_val_freq config)]
           else [])
       ++ (if truthy (reload config) then [LoadNMT (saveto config)] else [])
       ++ (if use_bokeh && BOKEH_AVAILABLE fw
           then [Plot "Cs-En" [["decoder_cost_cost"]] true]
           else []))
  /\ (forall l, ran l ->
        (exists source locals,
           In (Call (call_eval source locals)) events
           /\ ml_extensions l = extensions_after_eval fw source locals)
        /\ (list_kept -> ml_extensions l = exts)).
Proof.
  intros Ha. rewrite (assembled_layout _ Ha). split.
  - rewrite extensions_layout.
    exists the_cost, search_model, samples. reflexivity.
  - intros l Hl. destruct (loop_extensions _ Hl) as [H1 H2].
    split; [exact H1|]. intros Hk. exact (assembled_layout _ (H2 Hk)).
Qed.

(** *** What is read and reported *)

Lemma sound_for_each_in {A} P U (l : list A) body :
  (forall x, In x l -> sound P U (body x) (eq tt)) ->
  sound P U (for_each l body) (eq tt).
Proof.
  induction l as [|x l IH]; intros Hb; simpl.
  - apply sound_ret.
  - eapply sound_bind; [apply Hb; left; reflexivity | intros _ _].
    apply IH. intros y Hy. apply Hb. right. exact Hy.
Qed.

Lemma sound_collect_in {A B} P U (l : list A) (f : A -> M B) g :
  (forall x, In x l -> sound P U (f x) (eq (g x))) ->
  sound P U (collect l f) (eq (map g l)).
Proof.
  induction l as [|x l IH]; intros Hf; simpl.
  - apply sound_ret.
  - eapply sound_bind; [apply Hf; left; reflexivity | intros y <-].
    eapply sound_bind;
      [ apply IH; intros z Hz; apply Hf; right; exact Hz
      | intros ys <-; apply sound_ret ].
Qed.

(** As [walk], keeping track of which element a loop is at. *)
Ltac walk_in leaf :=
  cbv beta iota;
  lazymatch goal with
  | |- sound _ _ (bind (local _ None) _) _ => apply sound_unbound; leaf
  | |- sound _ _ (bind _ _) _ =>
      eapply sound_bind; [ walk_in leaf | intros ? ?; subst; walk_in leaf ]
  | |- sound _ _ (ret _) _ => apply sound_ret
  | |- sound _ _ (info _) _ => apply sound_info; leaf
  | |- sound _ _ (call _) _ => apply sound_call; leaf
  | |- sound _ _ (returning _ _) _ => apply sound_returning; leaf
  | |- sound _ _ (local _ (Some _)) _ => apply sound_local_bound
  | |- sound _ _ (for_each _ _) _ =>
      apply sound_for_each_in; intros [? ?] ?; walk_in leaf
  | |- sound _ _ (collect _ _) _ =>
      eapply sound_collect_in; intros ? ?; walk_in leaf
  | |- sound _ _ (if ?c then _ else _) _ =>
      apply sound_if;
      (let H := fresh "Hc" in
       intros H; rewrite ?H, ?orb_true_r; cbv beta iota delta [orb]; walk_in leaf)
  end.

Ltac trivial_eq :=
  first [ reflexivity | assumption | left; trivial_eq | right; trivial_eq ].

(** Prove the one case of a disjunction that holds. *)
Ltac pick :=
  first [ solve [repeat split; trivial_eq] | left; pick | right; pick ].

Ltac report :=
  unfold reported; cbv beta iota;
  unfold attribute_read, scheme_set, merged, graph2, noise_params, graph1,
    dropout_inputs, graph0, the_cost, training_representation, the_decoder,
    the_encoder, sampling_on, validator_on, sampler_on, noise_on, dropout_on,
    audio, words, sampling_input;
  use_tests; cbv beta iota;
  first [ exact I | assumption | solve [pick]
        | solve [left; apply length_map]
        | solve [right; eexists; eassumption]
        | solve [eexists; split; [eassumption | reflexivity]]
        | solve [eexists; repeat split; reflexivity] ].

Lemma main_reported :
  sound reported (fun _ => True)
    (main config tr_stream dev_stream use_bokeh) (eq tt).
Proof.
  open_main.
  destruct (input config =? "words") eqn:Hw;
    [| destruct (input config =? "audio") eqn:Ha].
  - walk_in report.
  - walk_in report.
  - walk_in report.
Qed.

Lemma events_reported ev : In ev events -> reported ev.
Proof.
  destruct (main_reported [] _ _ run_eq) as (HP & _ & _).
  rewrite Forall_forall in HP. apply HP.
Qed.

Lemma audio_input : audio = true -> input config = "audio".
Proof. unfold audio. apply String.eqb_eq. Qed.

(** X9.  Attributes of the bricks are read under the test of the statement
    that reads them, and no others are read: [embedding] only when the input
    is audio; [lookup], [fwd_fork], [back_fork], [readout], [fork] and
    [state_init] only when config['weight_noise_ff'] > 0.0, the first three on
    the encoder whatever its class; [sequence_generator] only for the weight
    noise or for the sampling graph. *)
Theorem attributes_by_test b name :
  In (Call (get_attr b name)) events ->
  In name ["bidir"; "prototype"; "embedding"; "transition"; "lookup";
           "fwd_fork"; "back_fork"; "sequence_generator"; "readout"; "fork";
           "state_init"]
  /\ (name = "embedding" -> input config = "audio" /\ b = the_encoder)
  /\ (name = "lookup" \/ name = "fwd_fork" \/ name = "back_fork" ->
      (0.0 <? weight_noise_ff config)%float = true /\ b = the_encoder)
  /\ (name = "readout" \/ name = "fork" ->
      (0.0 <? weight_noise_ff config)%float = true
      /\ b = attr the_decoder "sequence_generator")
  /\ (name = "state_init" ->
      (0.0 <? weight_noise_ff config)%float = true /\ b = the_decoder)
  /\ (name = "sequence_generator" ->
      b = the_decoder
      /\ ((0.0 <? weight_noise_ff config)%float = true
          \/ (hook_samples config >= 1)%Z \/ f1_validation config <> PyNone)).
Proof.
  intros H. apply events_reported in H. simpl in H.
  assert (Hs : sampling_on = true ->
               (hook_samples config >= 1)%Z \/ f1_validation config <> PyNone)
    by apply sampling_on_test.
  unfold attribute_read, noise_on in H.
  destruct H as [[-> ->] | [[-> ->] | [(Ha & -> & ->) | [(Ha & -> & ->) |
    [[-> ->] | [(Hn & -> & [-> | [-> | ->]]) | [(Hn & -> & [-> | ->]) |
    [(Hn & -> & ->) | (Hn & -> & ->)]]]]]]]];
    (split; [simpl; tauto|]);
    (split; [|split; [|split; [|split]]]); intros E;
    try discriminate E;
    try (destruct E as [E | [E | E]]; discriminate E);
    try (destruct E as [E | E]; discriminate E);
    (split;
     first [ assumption | reflexivity | apply audio_input; assumption
           | destruct Hn as [Hn | Hn]; [left; exact Hn | right; exact (Hs Hn)] ]).
Qed.

(** X10.  Only two attributes of bricks are ever assigned, [weights_init] and
    [biases_init].  The biases of the encoder and of the decoder get
    Constant(0); their weights get IsotropicGaussian(config['weight_scale']);
    and Orthogonal() goes to the prototype of [encoder.bidir], to
    [decoder.transition] and, for audio input only, to the prototype of
    [encoder.embedding]. *)
Theorem schemes_assigned b name i :
  In (Call (set_attr b name i)) events ->
  (name = "biases_init"
   /\ i = Constant 0 /\ (b = the_encoder \/ b = the_decoder))
  \/ (name = "weights_init"
      /\ ((i = IsotropicGaussian (weight_scale config)
           /\ (b = the_encoder \/ b = the_decoder))
          \/ (i = Orthogonal
              /\ (b = attr (attr the_encoder "bidir") "prototype"
                  \/ b = attr the_decoder "transition"
                  \/ (input config = "audio"
                      /\ b = attr (attr the_encoder "embedding") "prototype"))))).
Proof.
  intros H. apply events_reported in H. simpl in H. unfold scheme_set in H.
  destruct H as [(Hb & -> & ->) | [(Hb & -> & ->) | [(-> & -> & ->) |
    [(Ha & -> & -> & ->) | (-> & -> & ->)]]]].
  - right. split; [reflexivity|]. left. auto.
  - left. auto.
  - right. split; [reflexivity|]. right. auto.
  - right. split; [reflexivity|]. right. split; [reflexivity|].
    right. right. split; [exact (audio_input Ha) | reflexivity].
  - right. split; [reflexivity|]. right. auto.
Qed.

(** X11.  What is printed about the parameters.  The parameters are read off
    one graph, the one the training algorithm takes its parameters from.
    Every line of the table of shapes is an item of the Counter of the shapes
    of that graph's parameters; every line of the table of names pairs a name
    of the merged dictionary of the encoder's and the decoder's parameters
    with the shape of its own value; each total printed is the length of one
    of the two; and [get_value] is called on no other parameter. *)
Theorem parameters_reported :
  exists g names,
    names = merge_items fw (get_parameters fw the_encoder)
                           (get_parameters fw the_decoder)
    /\ (forall g', In (Call (read_parameters g')) events -> g' = g)
    /\ (forall l, ran l ->
        exists cost rule,
          ml_algorithm l =
            GradientDescent cost (graph_parameters fw g) rule "warn")
    /\ (forall dims n, In (Log (shape_count dims n)) events ->
        In (dims, n)
           (most_common fw (map (value_shape fw) (graph_parameters fw g))))
    /\ (forall dims name, In (Log (shape_name dims name)) events ->
        exists p, In (name, p) names /\ dims = value_shape fw p)
    /\ (forall n, In (Log (total_parameters n)) events ->
        n = List.length (graph_parameters fw g) \/ n = List.length names)
    /\ (forall p, In (Call (get_value p)) events ->
        In p (graph_parameters fw g) \/ exists name, In (name, p) names).
Proof.
  exists graph2, merged. split; [reflexivity|].
  split; [|split; [|split; [|split; [|split]]]].
  - intros g' H. exact (events_explained _ H).
  - intros l Hl. rewrite (run_inv _ Hl). exists the_cost, the_rule. reflexivity.
  - intros dims n H. exact (events_reported _ H).
  - intros dims name H. exact (events_reported _ H).
  - intros n H. exact (events_reported _ H).
  - intros p H. exact (events_reported _ H).
Qed.

(** X12.  The sampling graph takes no mask from the data: every mask it makes
    is [tensor.ones] of the first two dimensions of one of its own inputs, no
    other shape is read, and the encoder applied to a sampling input is given
    nothing but sampling inputs, each followed by its mask of ones. *)
Theorem sampling_masks_are_ones :
  (forall d0 d1, In (Call (new_variable (ones d0 d1))) events ->
     exists x, sampling_input x = true /\ d0 = shape x 0 /\ d1 = shape x 1)
  /\ (forall x i, In (Call (new_variable (shape x i))) events ->
      sampling_input x = true /\ (i = 0 \/ i = 1)%Z)
  /\ (forall enc args,
        In (Call (new_variable (encoder_apply enc args))) events ->
        (exists x, In x args /\ sampling_input x = true) ->
        exists inputs,
          Forall (fun x => sampling_input x = true) inputs
          /\ args = flat_map (fun x => [x; ones (shape x 0) (shape x 1)]) inputs).
Proof.
  split; [|split].
  - intros d0 d1 H. exact (events_reported _ H).
  - intros x i H. exact (events_reported _ H).
  - intros enc args H (x & Hx & Hs).
    destruct (events_explained _ H) as [E | [_ E]].
    + exfalso. unfold training_representation in E.
      destruct words; inversion E; subst; simpl in Hx;
        repeat (destruct Hx as [<- | Hx]; [discriminate Hs|]); exact Hx.
    + unfold sampling_representation, ones_of in E.
      destruct words; inversion E; subst.
      * exists [lmatrix "sampling_words"]. split; [|reflexivity].
        repeat constructor.
      * exists [ftensor3 "sampling_audio"; lmatrix "sampling_words_ends"].
        split; [|reflexivity]. repeat constructor.
Qed.


(** *** What has happened before training starts *)

(** X16.  Training never starts on bricks that were not initialised: whenever
    [run] is called on the main loop, however the call ends, the
    initialisation schemes have been pushed down in the encoder and in the
    decoder and [initialize()] has been called on both, before. *)
Theorem initialised_before_training l later earlier b name :
  events = later ++ Call (main_loop_run l) :: earlier ->
  b = the_encoder \/ b = the_decoder ->
  name = "push_initialization_config" \/ name = "initialize" ->
  In (Call (call_method b name)) earlier.
Proof.
  intros Ev Hb Hn.
  assert (Hl : ran l) by (unfold ran; rewrite Ev; apply in_elt).
  assert (H : precedes (fun ev => ev = Call (call_method b name)) is_run
                (main config tr_stream dev_stream use_bokeh)).
  { unfold the_encoder, the_decoder in Hb.
    destruct (call_known_input _ Hl) as [Hw | [Hw Ha]];
      rewrite Hw in Hb; unfold words, audio in *;
      destruct Hb as [-> | ->], Hn as [-> | ->];
      open_main; rewrite ?Hw, ?Ha; cbv iota; known_bricks; lead. }
  specialize (H [] _ _ _ _ _ run_eq Ev eq_refl).
  apply Exists_exists in H. destruct H as (ev & Hin & ->). exact Hin.
Qed.

(** *** Arguments that reach nothing but [eval] *)



End Run.
End Main.

(** ** Runs on sample configurations *)

(** Find an event in a trace that is known in full. *)
Ltac find_event :=
  vm_compute; repeat (first [left; reflexivity | right]).

(** In the calm framework the evaluation leaves the list of extensions as it
    was. *)
Lemma calm_keeps_list config tr_stream dev_stream use_bokeh :
  list_kept calm config tr_stream dev_stream use_bokeh.
Proof. intros source locals _. reflexivity. Qed.


(** [encoder.initialize()] raises a ValueError: [main] ends with it. *)
Lemma failures_propagate_run :
  outcome stormy
    (sample_config "words" 2 (PyBool true) (PyBool true) 0.5 0.25)
    (Stream 0) (Stream 1) false
  = inl (Raised "ValueError" "bad shape").
Proof.
  set (cfg := sample_config "words" 2 (PyBool true) (PyBool true) 0.5 0.25).
  destruct (failures_propagate stormy cfg (Stream 0) (Stream 1) false)
    as (_ & H & _).
  apply (H [] (call_method (BidirectionalEncoder 100 16 32) "initialize")
           (tl (events stormy cfg (Stream 0) (Stream 1) false))).
  - vm_compute. reflexivity.
  - reflexivity.
Defined.

(** The step rule is 'AdaDelta', which leaves the list alone: the Sampler is
    in the list of the main loop. *)
Lemma sampler_attached_run :
  exists l e m,
    ran calm (sample_config "words" 2 (PyBool true) (PyBool true) 0.5 0.25)
      (Stream 0) (Stream 1) false l
    /\ In e (ml_extensions l)
    /\ e = Sampler m (Stream 0) (PyStr "src.pkl") (PyStr "trg.pkl") 2 10 100.
Proof.
  set (cfg := sample_config "words" 2 (PyBool true) (PyBool true) 0.5 0.25).
  destruct (sampler_attached_iff calm cfg (Stream 0) (Stream 1) false)
    as (H1 & H2 & _ & H4).
  destruct H4 as [l Hl]; [vm_compute; reflexivity|].
  destruct (H2 l Hl) as [_ Hk].
  specialize (Hk (calm_keeps_list cfg (Stream 0) (Stream 1) false)).
  destruct (H1 _ Hk) as [[_ Hiff] Hargs].
  destruct Hiff as (e & He & Hs); [vm_compute; discriminate|].
  destruct (Hargs e He Hs) as [m Hm].
  exists l, e, m. auto.
Defined.

Lemma validator_attached_run :
  exists l e s m,
    ran calm (sample_config "audio" 0 (PyStr "dev.txt") PyNone 1.0 0.0)
      (Stream 0) (Stream 1) false l
    /\ In e (ml_extensions l)
    /\ e = F1Validator s
             (sample_config "audio" 0 (PyStr "dev.txt") PyNone 1.0 0.0)
             m (Stream 1) (PyBool true) 20.
Proof.
  set (cfg := sample_config "audio" 0 (PyStr "dev.txt") PyNone 1.0 0.0).
  destruct (validator_attached_iff calm cfg (Stream 0) (Stream 1) false)
    as (H1 & H2 & _ & H4).
  destruct H4 as [l Hl]; [vm_compute; reflexivity|].
  destruct (H2 l Hl) as [_ Hk].
  specialize (Hk (calm_keeps_list cfg (Stream 0) (Stream 1) false)).
  destruct (H1 _ Hk) as [[_ Hiff] Hargs].
  destruct Hiff as (e & He & Hs); [discriminate|].
  destruct (Hargs e He Hs) as (s & m & Hm).
  exists l, e, s, m. auto.
Defined.

(** Nothing optional is asked for: the four fixed extensions are all there is
    to see at the front of the list. *)
Lemma fixed_extensions_run :
  exists l cost rest,
    ran calm (sample_config "audio" 0 PyNone PyNone 1.0 0.0)
      (Stream 0) (Stream 1) false l
    /\ ml_extensions l =
         FinishAfter 1000 :: TrainingDataMonitoring [cost] true
         :: Printing true :: CheckpointNMT "model.npz" 50 :: rest.
Proof.
  set (cfg := sample_config "audio" 0 PyNone PyNone 1.0 0.0).
  destruct (fixed_extensions_first calm cfg (Stream 0) (Stream 1) false)
    as (H1 & H2 & _ & H4).
  destruct H4 as (l & Hl); [vm_compute; reflexivity|].
  destruct (H2 l Hl) as [_ Hk].
  specialize (Hk (calm_keeps_list cfg (Stream 0) (Stream 1) false)).
  destruct (H1 _ Hk) as (cost & rest & _ & He & _).
  exists l, cost, rest. auto.
Defined.

Lemma reload_attached_run :
  exists l before after,
    ran calm (sample_config "words" 2 (PyBool true) (PyInt 1) 0.5 0.25)
      (Stream 0) (Stream 1) true l
    /\ ml_extensions l = before ++ LoadNMT "model.npz" :: after.
Proof.
  set (cfg := sample_config "words" 2 (PyBool true) (PyInt 1) 0.5 0.25).
  destruct (reload_attached_iff calm cfg (Stream 0) (Stream 1) true)
    as (H1 & H2 & _ & H4).
  destruct H4 as (l & Hl); [vm_compute; reflexivity|].
  destruct (H2 l Hl) as [_ Hk].
  specialize (Hk (calm_keeps_list cfg (Stream 0) (Stream 1) true)).
  destruct (H1 _ Hk) as (_ & H).
  destruct H as (cost & middle & after & He & _); [reflexivity|].
  eexists l, _, after. split; [exact Hl | exact He].
Defined.

Lemma dropout_applied_run :
  exists g,
    In (Call (new_graph (apply_dropout g [graph_variable 1] 0.5)))
       (events calm
          (sample_config "words" 2 (PyBool true) (PyBool true) 0.5 0.25)
          (Stream 0) (Stream 1) false).
Proof.
  set (cfg := sample_config "words" 2 (PyBool true) (PyBool true) 0.5 0.25).
  destruct (dropout_applied_iff calm cfg (Stream 0) (Stream 1) false)
    as (H1 & H2 & _).
  destruct H2 as (g & vars & Hev);
    [vm_compute; reflexivity | vm_compute; reflexivity |].
  destruct (H1 g vars _ Hev) as (_ & _ & _ & Hvars & _).
  exists g. rewrite Hvars in Hev. exact Hev.
Defined.

Lemma weight_noise_applied_run :
  exists g,
    In (Call (new_graph
                (apply_noise g [SharedVariable 0; SharedVariable 1] 0.25)))
       (events calm
          (sample_config "words" 2 (PyBool true) (PyBool true) 0.5 0.25)
          (Stream 0) (Stream 1) false).
Proof.
  set (cfg := sample_config "words" 2 (PyBool true) (PyBool true) 0.5 0.25).
  destruct (weight_noise_applied_iff calm cfg (Stream 0) (Stream 1) false)
    as (H1 & H2 & _).
  destruct H2 as (g & params & Hev);
    [vm_compute; reflexivity | vm_compute; reflexivity |].
  destruct (H1 g params _ Hev)
    as (_ & _ & encoder & decoder & Henc & Hdec & Hparams).
  exists g. rewrite Hparams in Hev.
  destruct Henc as [[_ ->] | [Hi _]]; [|discriminate Hi].
  rewrite Hdec in Hev. exact Hev.
Defined.


(** Whatever the string is, here 'AdaDelta': it is evaluated and the
    composite rule is built. *)
Lemma step_rule_evaluated_run :
  let cfg := sample_config "audio" 0 PyNone PyNone 1.0 0.0 in
  exists locals,
    In (Call (call_eval "AdaDelta" locals))
       (events calm cfg (Stream 0) (Stream 1) false)
    /\ In (Call (new_step_rule
                   (CompositeRule
                      [StepClipping 1.0; called (py_eval "AdaDelta" locals)])))
          (events calm cfg (Stream 0) (Stream 1) false).
Proof.
  intros cfg.
  destruct (step_rule_evaluated calm cfg (Stream 0) (Stream 1) false)
    as (_ & H2 & _ & _ & H5).
  destruct H5 as (l & Hl); [vm_compute; reflexivity|].
  destruct (H2 l Hl) as (cost & params & locals & _ & _ & He & _ & Hr & _).
  exists locals. split; [exact He | exact Hr].
Defined.


(** ** Arguments that reach nothing but [eval] *)



(** ** Further runs on sample configurations *)

(** Audio as input and nothing optional: [encoder.initialize()] is the 34th
    event from the end, and no scheme is set after it. *)
Lemma configured_before_initialize_run :
  let t := events calm (sample_config "audio" 0 PyNone PyNone 1.0 0.0)
             (Stream 0) (Stream 1) false in
  nth_error t 33 =
    Some (Call (call_method (BidirectionalAudioEncoder 40 16 32) "initialize"))
  /\ count is_configuring (firstn 33 t) = 0.
Proof.
  intros t. split; [vm_compute; reflexivity|].
  apply (configured_before_initialize calm
           (sample_config "audio" 0 PyNone PyNone 1.0 0.0)
           (Stream 0) (Stream 1) false
           (firstn 33 t)
           (Call (call_method (BidirectionalAudioEncoder 40 16 32) "initialize"))
           (skipn 34 t)).
  - vm_compute. reflexivity.
  - reflexivity.
Defined.

(** In the same run the first override, of the prototype of [encoder.bidir],
    is followed by two more overrides and by no push. *)
Lemma overrides_after_push_run :
  let t := events calm (sample_config "audio" 0 PyNone PyNone 1.0 0.0)
             (Stream 0) (Stream 1) false in
  count is_override (firstn 41 t) = 2 /\ count is_push (firstn 41 t) = 0.
Proof.
  intros t. split; [vm_compute; reflexivity|].
  apply (overrides_after_push calm
           (sample_config "audio" 0 PyNone PyNone 1.0 0.0)
           (Stream 0) (Stream 1) false
           (firstn 41 t)
           (Call (set_attr
                    (attr (attr (BidirectionalAudioEncoder 40 16 32) "bidir")
                       "prototype")
                    "weights_init" Orthogonal))
           (skipn 42 t)).
  - vm_compute. reflexivity.
  - reflexivity.
Defined.

Lemma run_is_last_run :
  let t := events calm (sample_config "audio" 0 PyNone PyNone 1.0 0.0)
             (Stream 0) (Stream 1) false in
  exists l earlier,
    t = Call (main_loop_run l) :: earlier
    /\ count is_run t = 1
    /\ ml_data_stream l = Stream 0.
Proof.
  intros t.
  destruct (run_is_last calm (sample_config "audio" 0 PyNone PyNone 1.0 0.0)
              (Stream 0) (Stream 1) false)
    as (l & earlier & Ev & H1 & _ & _ & Hs); [vm_compute; reflexivity|].
  exists l, earlier. auto.
Defined.

Lemma main_loop_wiring_run :
  let cfg := sample_config "words" 2 (PyBool true) (PyBool true) 0.5 0.25 in
  exists l cost g,
    ran calm cfg (Stream 0) (Stream 1) false l
    /\ ml_model l = Model cost
    /\ underlying g = ComputationGraph cost
    /\ In (Call (new_extension (TrainingDataMonitoring [cost] true)))
          (events calm cfg (Stream 0) (Stream 1) false).
Proof.
  intros cfg.
  assert (Hl : ran calm cfg (Stream 0) (Stream 1) false
                 (the_main_loop calm cfg (Stream 0) (Stream 1) false))
    by (unfold ran; find_event).
  destruct (main_loop_wiring calm cfg (Stream 0) (Stream 1) false _ Hl)
    as (cost & g & rule & Hm & _ & Hg & Hx & _).
  exists (the_main_loop calm cfg (Stream 0) (Stream 1) false), cost, g. auto.
Defined.

Lemma bricks_are_shared_run :
  count is_new_brick
    (events calm (sample_config "words" 2 (PyBool true) (PyBool true) 0.5 0.25)
       (Stream 0) (Stream 1) false) <= 2.
Proof.
  exact (proj1 (bricks_are_shared calm
                  (sample_config "words" 2 (PyBool true) (PyBool true) 0.5 0.25)
                  (Stream 0) (Stream 1) false)).
Defined.

(** Dropout 0.5 and weight noise 0.25: the noise is applied over the
    dropout. *)
Lemma regularisations_in_order_run :
  let cfg := sample_config "words" 2 (PyBool true) (PyBool true) 0.5 0.25 in
  exists g,
    In (Call (read_parameters g)) (events calm cfg (Stream 0) (Stream 1) false)
    /\ regularisations g = [Noise; Dropout].
Proof.
  intros cfg.
  assert (Hg : In (Call (read_parameters (graph2 calm cfg)))
                 (events calm cfg (Stream 0) (Stream 1) false))
    by find_event.
  exists (graph2 calm cfg). split; [exact Hg|].
  exact (proj1 (regularisations_in_order calm cfg (Stream 0) (Stream 1) false
                  _ Hg)).
Defined.

Lemma plot_attached_run :
  let cfg := sample_config "words" 2 (PyBool true) (PyBool true) 0.5 0.25 in
  exists l front,
    ran calm cfg (Stream 0) (Stream 1) true l
    /\ ml_extensions l = front ++ [Plot "Cs-En" [["decoder_cost_cost"]] true].
Proof.
  intros cfg.
  assert (Hl : ran calm cfg (Stream 0) (Stream 1) true
                 (the_main_loop calm cfg (Stream 0) (Stream 1) true))
    by (unfold ran; find_event).
  destruct (plot_attached_iff calm cfg (Stream 0) (Stream 1) true)
    as (H1 & H2 & _).
  destruct (H2 _ Hl) as [_ Hk].
  specialize (Hk (calm_keeps_list cfg (Stream 0) (Stream 1) true)).
  destruct (H1 _ Hk) as [_ Hlast].
  destruct (Hlast eq_refl eq_refl) as (front & He & _).
  exists (the_main_loop calm cfg (Stream 0) (Stream 1) true), front. auto.
Defined.

(** Everything optional is asked for: eight extensions, in the order of the
    tests, and the step rule 'AdaDelta' leaves them to the main loop. *)
Lemma extensions_in_order_run :
  let cfg := sample_config "words" 2 (PyBool true) (PyBool true) 0.5 0.25 in
  exists l cost search samples,
    ran calm cfg (Stream 0) (Stream 1) true l
    /\ ml_extensions l =
         [FinishAfter 1000;
          TrainingDataMonitoring [cost] true;
          Printing true;
          CheckpointNMT "model.npz" 50;
          Sampler search (Stream 0) (PyStr "src.pkl") (PyStr "trg.pkl") 2 10 100;
          F1Validator samples cfg search (Stream 1) (PyBool true) 20;
          LoadNMT "model.npz";
          Plot "Cs-En" [["decoder_cost_cost"]] true].
Proof.
  intros cfg.
  assert (Hl : ran calm cfg (Stream 0) (Stream 1) true
                 (the_main_loop calm cfg (Stream 0) (Stream 1) true))
    by (unfold ran; find_event).
  assert (Ha : assembled calm cfg (Stream 0) (Stream 1) true
                 (extensions4 calm cfg (Stream 0) (Stream 1) true)).
  { exists "AdaDelta", (the_frame calm cfg (Stream 0) (Stream 1) true).
    split; [find_event | reflexivity]. }
  destruct (extensions_in_order calm cfg (Stream 0) (Stream 1) true _ Ha)
    as ((cost & search & samples & He) & Hloop).
  destruct (Hloop _ Hl) as [_ Hk].
  exists (the_main_loop calm cfg (Stream 0) (Stream 1) true),
    cost, search, samples.
  split; [exact Hl|].
  rewrite (Hk (calm_keeps_list cfg (Stream 0) (Stream 1) true)). exact He.
Defined.

(** Audio as input with weight noise 0.25: [lookup] is read, on the audio
    encoder. *)
Lemma attributes_by_test_run :
  let cfg := sample_config "audio" 0 PyNone PyNone 1.0 0.25 in
  In (Call (get_attr (BidirectionalAudioEncoder 40 16 32) "lookup"))
     (events calm cfg (Stream 0) (Stream 1) false)
  /\ (0.0 <? weight_noise_ff cfg)%float = true.
Proof.
  intros cfg.
  assert (H : In (Call (get_attr (BidirectionalAudioEncoder 40 16 32) "lookup"))
                (events calm cfg (Stream 0) (Stream 1) false))
    by find_event.
  split; [exact H|].
  destruct (attributes_by_test calm cfg (Stream 0) (Stream 1) false _ _ H)
    as (_ & _ & Hn & _).
  destruct Hn as [Hn _]; [left; reflexivity | exact Hn].
Defined.

Lemma schemes_assigned_run :
  let cfg := sample_config "audio" 0 PyNone PyNone 1.0 0.0 in
  let b := attr (attr (BidirectionalAudioEncoder 40 16 32) "embedding")
             "prototype" in
  In (Call (set_attr b "weights_init" Orthogonal))
     (events calm cfg (Stream 0) (Stream 1) false)
  /\ (Orthogonal = IsotropicGaussian (weight_scale cfg)
      \/ b = attr (attr (the_encoder cfg) "bidir") "prototype"
      \/ b = attr (the_decoder cfg) "transition"
      \/ input cfg = "audio").
Proof.
  intros cfg b.
  assert (H : In (Call (set_attr b "weights_init" Orthogonal))
                (events calm cfg (Stream 0) (Stream 1) false))
    by find_event.
  split; [exact H|].
  destruct (schemes_assigned calm cfg (Stream 0) (Stream 1) false _ _ _ H)
    as [(E & _) | (_ & [(E & _) | (_ & [E | [E | (E & _)]])])]; auto.
Defined.

(** The line printed for '/encoder.W' carries the shape of that
    parameter. *)
Lemma parameters_reported_run :
  let cfg := sample_config "words" 2 (PyBool true) (PyBool true) 0.5 0.25 in
  exists p,
    In ("/encoder.W", p)
       (merge_items calm (get_parameters calm (the_encoder cfg))
                         (get_parameters calm (the_decoder cfg)))
    /\ [3; 4]%Z = value_shape calm p.
Proof.
  intros cfg.
  destruct (parameters_reported calm cfg (Stream 0) (Stream 1) false)
    as (g & names & -> & _ & _ & _ & Hn & _).
  apply Hn. find_event.
Defined.

Lemma sampling_masks_are_ones_run :
  let cfg := sample_config "audio" 0 (PyStr "dev.txt") PyNone 1.0 0.0 in
  exists inputs,
    Forall (fun x => sampling_input x = true) inputs
    /\ [ftensor3 "sampling_audio";
        ones (shape (ftensor3 "sampling_audio") 0)
             (shape (ftensor3 "sampling_audio") 1);
        lmatrix "sampling_words_ends";
        ones (shape (lmatrix "sampling_words_ends") 0)
             (shape (lmatrix "sampling_words_ends") 1)]
       = flat_map (fun x => [x; ones (shape x 0) (shape x 1)]) inputs.
Proof.
  intros cfg.
  destruct (sampling_masks_are_ones calm cfg (Stream 0) (Stream 1) false)
    as (_ & _ & H).
  apply (H (BidirectionalAudioEncoder 40 16 32)).
  - find_event.
  - exists (ftensor3 "sampling_audio"). split; [left|]; reflexivity.
Defined.




(** The call of [run] is the latest event; [encoder.initialize()] is among
    the earlier ones. *)
Lemma initialised_before_training_run :
  let cfg := sample_config "audio" 0 PyNone PyNone 1.0 0.0 in
  In (Call (call_method (BidirectionalAudioEncoder 40 16 32) "initialize"))
     (tl (events calm cfg (Stream 0) (Stream 1) false)).
Proof.
  intros cfg.
  apply (initialised_before_training calm cfg (Stream 0) (Stream 1) false
           (the_main_loop calm cfg (Stream 0) (Stream 1) false) []).
  - vm_compute. reflexivity.
  - left. reflexivity.
  - right. reflexivity.
Defined.

(** ** Step rules that change the list of extensions *)

(** The configuration asks for a Sampler, and its step rule empties the list
    of extensions when it is evaluated: the main loop that is run holds no
    Sampler. *)
Lemma sampler_attached_upset :
  let cfg := with_step_rule emptying_rule
               (sample_config "words" 2 (PyBool true) (PyBool true) 0.5 0.25) in
  exists l,
    ran meddling cfg (Stream 0) (Stream 1) false l
    /\ (hook_samples cfg >= 1)%Z
    /\ ~ (exists e, In e (ml_extensions l) /\ is_Sampler e = true).
Proof.
  intros cfg. exists (the_main_loop meddling cfg (Stream 0) (Stream 1) false).
  split; [unfold ran; find_event|].
  split; [vm_compute; discriminate|].
  intros (e & He & _). vm_compute in He. exact He.
Qed.

(** The same for the F1Validator. *)
Lemma validator_attached_upset :
  let cfg := with_step_rule emptying_rule
               (sample_config "words" 2 (PyBool true) (PyBool true) 0.5 0.25) in
  exists l,
    ran meddling cfg (Stream 0) (Stream 1) false l
    /\ f1_validation cfg <> PyNone
    /\ ~ (exists e, In e (ml_extensions l) /\ is_F1Validator e = true).
Proof.
  intros cfg. exists (the_main_loop meddling cfg (Stream 0) (Stream 1) false).
  split; [unfold ran; find_event|].
  split; [discriminate|].
  intros (e & He & _). vm_compute in He. exact He.
Qed.

(** The main loop that is run is given the empty list: not one of the four
    fixed extensions is in it. *)
Lemma fixed_extensions_upset :
  let cfg := with_step_rule emptying_rule
               (sample_config "audio" 0 PyNone PyNone 1.0 0.0) in
  exists l,
    ran meddling cfg (Stream 0) (Stream 1) false l
    /\ ml_extensions l = []
    /\ ~ (exists cost rest,
            ml_extensions l =
              FinishAfter (finish_after cfg)
              :: TrainingDataMonitoring [cost] true
              :: Printing true
              :: CheckpointNMT (saveto cfg) (save_freq cfg)
              :: rest).
Proof.
  intros cfg. exists (the_main_loop meddling cfg (Stream 0) (Stream 1) false).
  split; [unfold ran; find_event|].
  split; [reflexivity|].
  intros (cost & rest & H). vm_compute in H. discriminate H.
Qed.

(** config['reload'] is truthy, and the main loop that is run holds no
    LoadNMT. *)
Lemma reload_attached_upset :
  let cfg := with_step_rule emptying_rule
               (sample_config "words" 2 (PyBool true) (PyInt 1) 0.5 0.25) in
  exists l,
    ran meddling cfg (Stream 0) (Stream 1) false l
    /\ truthy (reload cfg) = true
    /\ ~ (exists e, In e (ml_extensions l) /\ is_LoadNMT e = true).
Proof.
  intros cfg. exists (the_main_loop meddling cfg (Stream 0) (Stream 1) false).
  split; [unfold ran; find_event|].
  split; [reflexivity|].
  intros (e & He & _). vm_compute in He. exact He.
Qed.

